(** * flappybird.py: the hill-climbing move optimiser and the frame-stepped game

    A shallow embedding of [src/flappybird.py]:
    - Python integers are [Z]; Python lists of integers are [list Z] with
      Python's indexing rules (negative indices count from the end, anything
      else out of range raises [IndexError]);
    - [random.randint] reads from an explicit entropy tape that is threaded
      through every call;
    - Python floats (bird and pipe coordinates, milliseconds) are idealised as
      real numbers; integer frame counters stay in [Z];
    - the pygame services (event queue, pixel-mask overlap test) are inputs of
      each loop iteration. *)

From Stdlib Require Import ZArith List Bool Lia QArith Reals Lra.
Import ListNotations.

Open Scope Z_scope.

(** ** Python exceptions and the result monad *)

Inductive pyexc : Type :=
| IndexError
| ValueError
| UnboundLocalError.

Inductive result (A : Type) : Type :=
| Ok (a : A)
| Raise (e : pyexc).

Arguments Ok {A} a.
Arguments Raise {A} e.

Definition bind {A B : Type} (m : result A) (k : A -> result B) : result B :=
  match m with
  | Ok a => k a
  | Raise e => Raise e
  end.

Notation "x <- m ;; k" := (bind m (fun x => k))
  (at level 61, m at next level, right associativity).
Notation "' p <- m ;; k" := (bind m (fun p => k))
  (at level 61, p pattern, m at next level, right associativity).

(** ** Python list indexing *)

Module PyList.

Section Indexing.

Context {A : Type}.

Definition len (l : list A) : Z := Z.of_nat (length l).

(** The position a Python index denotes, if any. *)
Definition index (l : list A) (i : Z) : option nat :=
  if (0 <=? i) && (i <? len l) then Some (Z.to_nat i)
  else if (- len l <=? i) && (i <? 0) then Some (Z.to_nat (i + len l))
  else None.

Fixpoint update (l : list A) (n : nat) (v : A) : list A :=
  match l, n with
  | [], _ => []
  | _ :: t, O => v :: t
  | h :: t, S m => h :: update t m v
  end.

(** [l[i]] *)
Definition getitem (l : list A) (i : Z) : result A :=
  match index l i with
  | Some n => match nth_error l n with
              | Some v => Ok v
              | None => Raise IndexError
              end
  | None => Raise IndexError
  end.

(** [l[i] = v] *)
Definition setitem (l : list A) (i : Z) (v : A) : result (list A) :=
  match index l i with
  | Some n => Ok (update l n v)
  | None => Raise IndexError
  end.

End Indexing.

(** [l == m] on lists of integers *)
Fixpoint eqb (l m : list Z) : bool :=
  match l, m with
  | [], [] => true
  | a :: l', b :: m' => (a =? b) && eqb l' m'
  | _, _ => false
  end.

End PyList.

(** ** random.randint *)

(** The generator is an infinite tape of raw integers and a read position;
    [randint a b] maps the next raw integer into [a..b]. *)
Record rng : Type := mkRng { draws : nat -> Z; used : nat }.

Definition randint (a b : Z) (g : rng) : Z * rng :=
  (a + draws g (used g) mod (b - a + 1),
   {| draws := draws g; used := S (used g) |}).

(** ** class ai *)

Module Ai.

Import PyList.

Record ai : Type := mkAi {
  curr : list Z;       (* [score, death type, last score change, moves...] *)
  best : list Z;
  count : Z;
  compframe : Z;
  deathtype : Z;
  deathprocessed : Z;
  done : Z;            (* 0, 1 or True (= 1) *)
  score : Z
}.

Definition set_curr (s : ai) (c : list Z) : ai :=
  mkAi c (best s) (count s) (compframe s) (deathtype s)
       (deathprocessed s) (done s) (score s).
Definition set_best (s : ai) (b : list Z) : ai :=
  mkAi (curr s) b (count s) (compframe s) (deathtype s)
       (deathprocessed s) (done s) (score s).
Definition set_count (s : ai) (n : Z) : ai :=
  mkAi (curr s) (best s) n (compframe s) (deathtype s)
       (deathprocessed s) (done s) (score s).
Definition set_compframe (s : ai) (n : Z) : ai :=
  mkAi (curr s) (best s) (count s) n (deathtype s)
       (deathprocessed s) (done s) (score s).
Definition set_deathtype (s : ai) (n : Z) : ai :=
  mkAi (curr s) (best s) (count s) (compframe s) n
       (deathprocessed s) (done s) (score s).
Definition set_deathprocessed (s : ai) (n : Z) : ai :=
  mkAi (curr s) (best s) (count s) (compframe s) (deathtype s)
       n (done s) (score s).
Definition set_done (s : ai) (n : Z) : ai :=
  mkAi (curr s) (best s) (count s) (compframe s) (deathtype s)
       (deathprocessed s) n (score s).
Definition set_score (s : ai) (n : Z) : ai :=
  mkAi (curr s) (best s) (count s) (compframe s) (deathtype s)
       (deathprocessed s) (done s) n.

(** [ai.__init__] *)
Definition init : ai :=
  {| curr := [0; 2; 0]; best := [0; 2; 0]; count := 2; compframe := 0;
     deathtype := 2; deathprocessed := 0; done := 1; score := 0 |}.

(** [self.best = self.curr[:]; self.compframe = self.count] *)
Definition promote (s : ai) : ai :=
  set_compframe (set_best s (curr s)) (count s).

(** [ai.resetvar] *)
Definition resetvar (self : ai) (score : Z) : result ai :=
  c <- setitem (curr self) 0 score ;;
  c <- setitem c 1 (deathtype self) ;;
  let self := set_curr self c in
  c0 <- getitem (curr self) 0 ;;
  b0 <- getitem (best self) 0 ;;
  self <- (if c0 >? b0 then Ok (promote self)
           else
             c0 <- getitem (curr self) 0 ;;
             b0 <- getitem (best self) 0 ;;
             if c0 =? b0 then
               c1 <- getitem (curr self) 1 ;;
               b1 <- getitem (best self) 1 ;;
               if c1 <? b1 then Ok (promote self) else Ok self
             else Ok self) ;;
  Ok (set_count (set_curr self (best self)) 2).

(** [self.curr[self.count] = randint(0, hi)] *)
Definition reroll (self : ai) (hi : Z) (g : rng) : result (ai * rng) :=
  let (r, g) := randint 0 hi g in
  c <- setitem (curr self) (count self) r ;;
  Ok (set_curr self c, g).

(** [self.count > aux_count] where [aux_count] is the float
    [(self.compframe - self.best[2]) / 2]: true division of integers,
    exact as a rational for frame counters (whenever the difference is at
    most 2^53 in magnitude; Python rounds larger quotients and raises
    [OverflowError] beyond the float range, which is not modelled). *)
Definition past_half (cnt compframe b2 : Z) : bool :=
  let aux_count := (inject_Z (compframe - b2) / inject_Z 2)%Q in
  negb (Qle_bool (inject_Z cnt) aux_count).

(** [ai.play] *)
Definition play (self : ai) (g : rng) : result (Z * ai * rng) :=
  '(self, g) <-
    (if eqb (best self) [0; 2; 0] || (count self >? len (curr self) - 1)
     then
       let (r, g) := randint 0 25 g in
       Ok (set_curr self (curr self ++ [r]), g)
     else
       b2 <- getitem (best self) 2 ;;
       if count self >? b2 then
         b1 <- getitem (best self) 1 ;;
         '(self, g) <- (if b1 =? 2 then reroll self 25 g
                        else Ok (self, g)) ;;
         b1 <- getitem (best self) 1 ;;
         if b1 =? 1 then
           b2 <- getitem (best self) 2 ;;
           if past_half (count self) (compframe self) b2
           then reroll self 25 g
           else Ok (self, g)
         else
           let aux_count := compframe self - 20 in
           if count self >? aux_count then reroll self 30 g
           else Ok (self, g)
       else Ok (self, g)) ;;
  let self := set_count self (count self + 1) in
  v <- getitem (curr self) (count self - 1) ;;
  Ok (v, self, g).

(** [ai.scorecount] *)
Definition scorecount (self : ai) : result ai :=
  c <- setitem (curr self) 2 (count self) ;;
  Ok (set_curr self c).

End Ai.

(** ** Module constants and the frame/millisecond conversions *)

Definition FPS : Z := 60.
Definition ANIMATION_SPEED : R := (18 / 100)%R.
Definition WIN_WIDTH : Z := 284 * 2.
Definition WIN_HEIGHT : Z := 512.
Definition BIRD_X : Z := 50.

(** [frames_to_msec]: [1000.0 * frames / fps] *)
Definition frames_to_msec (frames : Z) : R :=
  (1000 * IZR frames / IZR FPS)%R.

(** [msec_to_frames]: [fps * milliseconds / 1000.0] *)
Definition msec_to_frames (milliseconds : Z) : R :=
  (IZR FPS * IZR milliseconds / 1000)%R.

(** Boolean tests on reals (Python's float comparisons). *)
Definition Rltb (a b : R) : bool := if Rlt_dec a b then true else false.
Definition Rleb (a b : R) : bool := if Rle_dec a b then true else false.

(** [int(r)] on a float: truncation toward zero. *)
Definition trunc (r : R) : Z :=
  if Rle_dec 0 r then Int_part r else - Int_part (- r).

(** ** class Bird *)

Module Bird.

Definition WIDTH : Z := 32.
Definition HEIGHT : Z := 32.
Definition SINK_SPEED : R := (2 / 10)%R.
Definition CLIMB_SPEED : R := (3 / 10)%R.
Definition CLIMB_DURATION : R := 200%R.

Record t : Type := mk { x : R; y : R; msec_to_climb : R }.

(** [Bird.__init__] (the images and masks belong to the renderer) *)
Definition init (x y msec_to_climb : R) : t := mk x y msec_to_climb.

Definition set_x (b : t) (v : R) : t := mk v (y b) (msec_to_climb b).
Definition set_msec_to_climb (b : t) (v : R) : t := mk (x b) (y b) v.

(** [Bird.update] *)
Definition update (self : t) (delta_frames : Z) : t :=
  if Rlt_dec 0 (msec_to_climb self) then
    let frac_climb_done := (1 - msec_to_climb self / CLIMB_DURATION)%R in
    let y' := (y self - CLIMB_SPEED * frames_to_msec delta_frames *
                        (1 - cos (frac_climb_done * PI)))%R in
    mk (x self) y' (msec_to_climb self - frames_to_msec delta_frames)%R
  else
    mk (x self) (y self + SINK_SPEED * frames_to_msec delta_frames)%R
       (msec_to_climb self).

(** [Bird.rect[1]]: pygame's Rect stores integer coordinates. *)
Definition rect_y (self : t) : Z := trunc (y self).

End Bird.

(** ** class PipePair *)

Module PipePair.

Definition WIDTH : Z := 80.
Definition PIECE_HEIGHT : Z := 32.
Definition ADD_INTERVAL : Z := 3000.

Inductive piece : Type := pipe_end_img | pipe_body_img.

(** A blit: which piece, and the y coordinate it is drawn at (x is 0). *)
Definition blit : Type := (piece * Z)%type.

Record t : Type := mk {
  x : R;
  score_counted : bool;
  image : list blit;
  top_pieces : Z;
  bottom_pieces : Z
}.

(** [range(a, b)] *)
Definition range (a b : Z) : list Z :=
  map (fun k => a + Z.of_nat k) (seq 0 (Z.to_nat (b - a))).

(** [int((WIN_HEIGHT - 3 * Bird.HEIGHT - 3 * PIECE_HEIGHT) / PIECE_HEIGHT)] *)
Definition total_pipe_body_pieces : Z :=
  Z.quot (WIN_HEIGHT - 3 * Bird.HEIGHT - 3 * PIECE_HEIGHT) PIECE_HEIGHT.

(** [PipePair.__init__] *)
Definition init (pipenum : Z) : result t :=
  let x := IZR (WIN_WIDTH - 1) in
  let bottom_pieces := pipenum in
  let top_pieces := total_pipe_body_pieces - bottom_pieces in
  (* bottom pipe *)
  let bottom_body :=
    map (fun i => (pipe_body_img, WIN_HEIGHT - i * PIECE_HEIGHT))
        (range 1 (bottom_pieces + 1)) in
  let bottom_pipe_end_y := WIN_HEIGHT - bottom_pieces * PIECE_HEIGHT in
  let bottom_end := (pipe_end_img, bottom_pipe_end_y - PIECE_HEIGHT) in
  (* top pipe *)
  let top_body :=
    map (fun i => (pipe_body_img, i * PIECE_HEIGHT)) (range 0 top_pieces) in
  let top_pipe_end_y := top_pieces * PIECE_HEIGHT in
  let top_end := (pipe_end_img, top_pipe_end_y) in
  (* compensate for added end pieces *)
  let top_pieces := top_pieces + 1 in
  let bottom_pieces := bottom_pieces + 1 in
  Ok {| x := x; score_counted := false;
        image := bottom_body ++ [bottom_end] ++ top_body ++ [top_end];
        top_pieces := top_pieces; bottom_pieces := bottom_pieces |}.

Definition top_height_px (self : t) : Z := top_pieces self * PIECE_HEIGHT.
Definition bottom_height_px (self : t) : Z :=
  bottom_pieces self * PIECE_HEIGHT.

(** [-PipePair.WIDTH < self.x < WIN_WIDTH] *)
Definition visible (self : t) : bool :=
  Rltb (IZR (- WIDTH)) (x self) && Rltb (x self) (IZR WIN_WIDTH).

(** [PipePair.update] *)
Definition update (self : t) (delta_frames : Z) : t :=
  mk (x self - ANIMATION_SPEED * frames_to_msec delta_frames)%R
     (score_counted self) (image self) (top_pieces self)
     (bottom_pieces self).

Definition set_score_counted (self : t) (v : bool) : t :=
  mk (x self) v (image self) (top_pieces self) (bottom_pieces self).

End PipePair.

(** ** main: the simulation loop *)

Module Game.

Import PyList.

(** The pygame events the loop distinguishes. *)
Inductive key : Type :=
| K_ESCAPE | K_PAUSE | K_p | K_UP | K_RETURN | K_SPACE | K_other.

Inductive event : Type :=
| QUIT
| KEYUP (k : key)
| MOUSEBUTTONUP
| OTHER.

(** What one iteration reads from pygame: the event queue and the
    pixel-mask overlap test [pygame.sprite.collide_mask]. *)
Record tick_input : Type := mkInput {
  events : list event;
  collide_mask : PipePair.t -> Bird.t -> bool
}.

(** The local variables of [main] that live across iterations.  [paused],
    [pscount], [frame_clock] and [score] are bound by the reset block, which
    the first iteration always runs; [bird] is bound only when [player] is
    non-zero. *)
Record state : Type := mk {
  birds : list Bird.t;
  autoinput : list Ai.ai;
  bird : option Bird.t;
  player : Z;
  pipes : list PipePair.t;
  pscount : Z;
  end_ : bool;              (* [end]: 0 or True *)
  firstcheck : Z;
  restart : Z;
  score : Z;
  paused : bool;
  frame_clock : Z;
  gen : rng
}.

(** preset pipe size *)
Definition PS : list Z := [5; 4; 8; 3; 8; 7; 3; 2; 6; 5].

(** [int(WIN_HEIGHT/2 - Bird.HEIGHT/2)]; both halves are whole numbers. *)
Definition START_Y : R := IZR (WIN_HEIGHT / 2 - Bird.HEIGHT / 2).

Definition new_bird (x : Z) : Bird.t := Bird.init (IZR x) START_Y 2%R.

(** The code before the loop, for [sys.argv[1:] = [birdnum, player]]. *)
Definition main_init (birdnum player : Z) (g : rng) : state :=
  {| birds := repeat (new_bird BIRD_X) (Z.to_nat birdnum);
     autoinput := repeat Ai.init (Z.to_nat birdnum);
     bird := if player =? 0 then None else Some (new_bird BIRD_X);
     player := player;
     pipes := [];
     pscount := 0;
     end_ := false;
     firstcheck := 1;
     restart := 1;
     score := 0;
     paused := false;
     frame_clock := 0;
     gen := g |}.

(** [restart=1; for i in autoinput: if i.done<restart: restart=i.done] *)
Definition compute_restart (autoinput : list Ai.ai) : Z :=
  fold_left (fun restart i => if Ai.done i <? restart then Ai.done i
                              else restart) autoinput 1.

(** Lines 364-371: the per-lineage part of the reset block. *)
Fixpoint reset_lineages (firstcheck : Z) (birds : list Bird.t)
         (autoinput : list Ai.ai) : result (list Bird.t * list Ai.ai) :=
  match birds with
  | [] => Ok ([], autoinput)
  | _ :: birds' =>
      match autoinput with
      | [] => Raise IndexError
      | a :: autoinput' =>
          let a := Ai.set_deathprocessed (Ai.set_done a 0) 0 in
          a <- (if firstcheck =? 0
                then a <- Ai.resetvar a (Ai.score a) ;;
                     Ok (Ai.set_score a 0)
                else Ok a) ;;
          '(bs, ais) <- reset_lineages firstcheck birds' autoinput' ;;
          Ok (new_bird 50 :: bs, a :: ais)
      end
  end.

(** Lines 377-382 and 387-392: scan for the extreme value of [best[k]];
    [better v best] is [v > best] for the score and [v < best] for the
    death type. *)
Fixpoint scan (better : Z -> Z -> bool) (k : Z) (autoinput : list Ai.ai)
         (i best bestindex : Z) : result (Z * Z) :=
  match autoinput with
  | [] => Ok (best, bestindex)
  | a :: rest =>
      v <- getitem (Ai.best a) k ;;
      if better v best then scan better k rest (i + 1) v i
      else scan better k rest (i + 1) best bestindex
  end.

(** Lines 384-386 and 394-396: lineages behind the extreme value take the
    leader's [best] list. *)
Fixpoint adopt (worse : Z -> Z -> bool) (k : Z) (leader : list Z)
         (best : Z) (autoinput : list Ai.ai) : result (list Ai.ai) :=
  match autoinput with
  | [] => Ok []
  | a :: rest =>
      v <- getitem (Ai.best a) k ;;
      let a := if worse v best then Ai.set_best a leader else a in
      rest <- adopt worse k leader best rest ;;
      Ok (a :: rest)
  end.

Definition sync_best (autoinput : list Ai.ai) : result (list Ai.ai) :=
  '(best, bestindex) <- scan Z.gtb 0 autoinput 0 0 (-1) ;;
  autoinput <- (if best >? 0 then
                  leader <- getitem autoinput bestindex ;;
                  adopt Z.ltb 0 (Ai.best leader) best autoinput
                else Ok autoinput) ;;
  '(best, bestindex) <- scan Z.ltb 1 autoinput 0 2 (-1) ;;
  if best <? 2 then
    leader <- getitem autoinput bestindex ;;
    adopt Z.gtb 1 (Ai.best leader) best autoinput
  else Ok autoinput.

(** [for i in autoinput: i.resetvar(i.score)] *)
Fixpoint resetvar_all (autoinput : list Ai.ai) : result (list Ai.ai) :=
  match autoinput with
  | [] => Ok []
  | a :: rest =>
      a <- Ai.resetvar a (Ai.score a) ;;
      rest <- resetvar_all rest ;;
      Ok (a :: rest)
  end.

Definition truthy (z : Z) : bool := negb (z =? 0).

(** Lines 357-398. *)
Definition reset_block (s : state) : result state :=
  '(bird, player) <-
    (if truthy (player s) then Ok (Some (new_bird 50), 1)
     else Ok (bird s, player s)) ;;
  '(birds, autoinput) <-
    reset_lineages (firstcheck s) (birds s) (autoinput s) ;;
  autoinput <- sync_best autoinput ;;
  autoinput <- resetvar_all autoinput ;;
  Ok {| birds := birds; autoinput := autoinput; bird := bird;
        player := player; pipes := []; pscount := 0; end_ := end_ s;
        firstcheck := 0; restart := restart s; score := 0;
        paused := false; frame_clock := 0; gen := gen s |}.

(** Python's [%] on floats with a positive divisor, and float truthiness. *)
Definition pymod (a b : R) : R := (a - b * IZR (Int_part (a / b)))%R.
Definition Rtruthy (r : R) : bool := if Req_dec_T r 0 then false else true.

(** Lines 403-408. *)
Definition spawn (paused : bool) (frame_clock pscount : Z)
           (pipes : list PipePair.t) : result (Z * list PipePair.t) :=
  if negb (paused ||
           Rtruthy (pymod (IZR frame_clock)
                          (msec_to_frames PipePair.ADD_INTERVAL)))
  then
    n <- getitem PS pscount ;;
    pp <- PipePair.init n ;;
    let pscount := pscount + 1 in
    let pscount := if pscount =? 10 then 0 else pscount in
    Ok (pscount, pipes ++ [pp])
  else Ok (pscount, pipes).

Definition is_escape (e : event) : bool :=
  match e with KEYUP K_ESCAPE => true | _ => false end.
Definition is_quit (e : event) : bool :=
  match e with QUIT => true | _ => false end.
Definition is_pause (e : event) : bool :=
  match e with KEYUP K_PAUSE | KEYUP K_p => true | _ => false end.
Definition is_flap (e : event) : bool :=
  match e with
  | MOUSEBUTTONUP | KEYUP K_UP | KEYUP K_RETURN | KEYUP K_SPACE => true
  | _ => false
  end.

(** Lines 410-421; the local [done] that is set before [break] is never
    read. *)
Fixpoint handle_events (es : list event) (end_ paused : bool) (player : Z)
         (bird : option Bird.t) : result (bool * bool * option Bird.t) :=
  match es with
  | [] => Ok (end_, paused, bird)
  | e :: es' =>
      let end_ := if is_escape e then true else end_ in
      if is_quit e || is_escape e then Ok (end_, paused, bird)
      else if is_pause e then handle_events es' end_ (negb paused) player bird
      else if is_flap e then
        if truthy player then
          match bird with
          | Some b =>
              handle_events es' end_ paused player
                (Some (Bird.set_msec_to_climb b Bird.CLIMB_DURATION))
          | None => Raise UnboundLocalError
          end
        else handle_events es' end_ paused player bird
      else handle_events es' end_ paused player bird
  end.

(** [0 >= bird.y or bird.y >= WIN_HEIGHT - Bird.HEIGHT] *)
Definition out_of_bounds (b : Bird.t) : bool :=
  Rleb (Bird.y b) 0 || Rleb (IZR (WIN_HEIGHT - Bird.HEIGHT)) (Bird.y b).

(** Lines 427-439. *)
Fixpoint check_collisions (collide : PipePair.t -> Bird.t -> bool)
         (pipes : list PipePair.t) (birds : list Bird.t)
         (autoinput : list Ai.ai) : result (list Bird.t * list Ai.ai) :=
  match birds with
  | [] => Ok ([], autoinput)
  | b :: birds' =>
      let pipe_collision := existsb (fun p => collide p b) pipes in
      match autoinput with
      | [] => Raise IndexError
      | a :: autoinput' =>
          '(b, a) <-
            (if (Ai.deathprocessed a =? 0) &&
                (pipe_collision || out_of_bounds b)
             then
               let a := Ai.set_deathprocessed a 1 in
               let b := Bird.set_x b (-100)%R in
               let a := Ai.set_done a 1 in
               if pipe_collision then
                 p0 <- getitem pipes 0 ;;
                 if (Bird.rect_y b >?
                     (PipePair.top_pieces p0 - 1) * PipePair.PIECE_HEIGHT)
                    && (Bird.rect_y b <?
                        WIN_HEIGHT -
                        PipePair.bottom_pieces p0 * PipePair.PIECE_HEIGHT)
                 then Ok (b, Ai.set_deathtype a 0)
                 else Ok (b, Ai.set_deathtype a 1)
               else Ok (b, Ai.set_deathtype a 2)
             else Ok (b, a)) ;;
          '(bs, ais) <- check_collisions collide pipes birds' autoinput' ;;
          Ok (b :: bs, a :: ais)
      end
  end.

(** Lines 443-447. *)
Definition player_collision (collide : PipePair.t -> Bird.t -> bool)
           (pipes : list PipePair.t) (player : Z) (bird : option Bird.t)
  : result (Z * option Bird.t) :=
  if truthy player then
    match bird with
    | Some b =>
        if existsb (fun p => collide p b) pipes || out_of_bounds b
        then Ok (-1, Some (Bird.set_x b (-100)%R))
        else Ok (player, bird)
    | None => Raise UnboundLocalError
    end
  else Ok (player, bird).

(** [while pipes and not pipes[0].visible: pipes.popleft()] *)
Fixpoint retire (pipes : list PipePair.t) : list PipePair.t :=
  match pipes with
  | [] => []
  | p :: rest => if PipePair.visible p then pipes else retire rest
  end.

(** Lines 466-469. *)
Fixpoint award (birds : list Bird.t) (autoinput : list Ai.ai)
  : result (list Ai.ai) :=
  match birds with
  | [] => Ok autoinput
  | _ :: birds' =>
      match autoinput with
      | [] => Raise IndexError
      | a :: autoinput' =>
          a <- (if Ai.done a =? 0
                then Ai.scorecount (Ai.set_score a (Ai.score a + 1))
                else Ok a) ;;
          rest <- award birds' autoinput' ;;
          Ok (a :: rest)
      end
  end.

(** Lines 464-471. *)
Fixpoint count_scores (pipes : list PipePair.t) (birds : list Bird.t)
         (autoinput : list Ai.ai) (score : Z)
  : result (list PipePair.t * list Ai.ai * Z) :=
  match pipes with
  | [] => Ok ([], autoinput, score)
  | p :: rest =>
      '(p, autoinput, score) <-
        (if Rltb (PipePair.x p + IZR PipePair.WIDTH) (IZR BIRD_X) &&
            negb (PipePair.score_counted p)
         then
           autoinput <- award birds autoinput ;;
           Ok (PipePair.set_score_counted p true, autoinput, score + 1)
         else Ok (p, autoinput, score)) ;;
      '(rest, autoinput, score) <- count_scores rest birds autoinput score ;;
      Ok (p :: rest, autoinput, score)
  end.

(** Lines 481-484: the body of the "machine learning call" loop. *)
Definition ml_body (b : Bird.t) (a : Ai.ai) (g : rng)
  : result (Bird.t * Ai.ai * rng) :=
  if Ai.done a =? 0 then
    '(fly, a, g) <- Ai.play a g ;;
    if fly =? 1
    then Ok (Bird.set_msec_to_climb b Bird.CLIMB_DURATION, a, g)
    else Ok (b, a, g)
  else Ok (b, a, g).

(** Lines 480-484. *)
Fixpoint ml_call (birds : list Bird.t) (autoinput : list Ai.ai) (g : rng)
  : result (list Bird.t * list Ai.ai * rng) :=
  match birds with
  | [] => Ok ([], autoinput, g)
  | b :: birds' =>
      match autoinput with
      | [] => Raise IndexError
      | a :: autoinput' =>
          '(b, a, g) <- ml_body b a g ;;
          '(bs, ais, g) <- ml_call birds' autoinput' g ;;
          Ok (b :: bs, a :: ais, g)
      end
  end.

(** Lines 400-484: what follows the reset block in one iteration. *)
Definition tick (inp : tick_input) (s : state) : result state :=
  '(pscount, pipes) <-
    spawn (paused s) (frame_clock s) (pscount s) (pipes s) ;;
  '(end_, paused, bird) <-
    handle_events (events inp) (end_ s) (paused s) (player s) (bird s) ;;
  if paused then
    (* continue *)
    Ok {| birds := birds s; autoinput := autoinput s; bird := bird;
          player := player s; pipes := pipes; pscount := pscount;
          end_ := end_; firstcheck := firstcheck s; restart := restart s;
          score := score s; paused := paused;
          frame_clock := frame_clock s; gen := gen s |}
  else
    '(birds, autoinput) <-
      check_collisions (collide_mask inp) pipes (birds s) (autoinput s) ;;
    '(player, bird) <-
      player_collision (collide_mask inp) pipes (player s) bird ;;
    let pipes := retire pipes in
    let pipes := map (fun p => PipePair.update p 1) pipes in
    let birds := map (fun b => Bird.update b 1) birds in
    bird <- (if truthy player then
               match bird with
               | Some b => Ok (Some (Bird.update b 1))
               | None => Raise UnboundLocalError
               end
             else Ok bird) ;;
    '(pipes, autoinput, score) <-
      count_scores pipes birds autoinput (score s) ;;
    let frame_clock := frame_clock s + 1 in
    '(birds, autoinput, g) <- ml_call birds autoinput (gen s) ;;
    Ok {| birds := birds; autoinput := autoinput; bird := bird;
          player := player; pipes := pipes; pscount := pscount;
          end_ := end_; firstcheck := firstcheck s; restart := restart s;
          score := score; paused := paused; frame_clock := frame_clock;
          gen := g |}.

(** One pass through the body of [while end==0]. *)
Definition iteration (inp : tick_input) (s : state) : result state :=
  let restart := compute_restart (autoinput s) in
  let s := mk (birds s) (autoinput s) (bird s) (player s) (pipes s)
              (pscount s) (end_ s) (firstcheck s) restart (score s)
              (paused s) (frame_clock s) (gen s) in
  s <- (if (restart =? 1) &&
           ((player s =? 0) || (player s =? -1) || truthy (firstcheck s))
        then reset_block s else Ok s) ;;
  tick inp s.

(** [while end==0: ...] fed with the inputs of successive iterations; the
    second component counts the iterations that ran.  The loop has left
    the [while] exactly when [end_] is set in the resulting state. *)
Fixpoint main_loop (inputs : list tick_input) (s : state) (n : nat)
  : result (state * nat) :=
  match inputs with
  | [] => Ok (s, n)
  | inp :: rest =>
      if end_ s then Ok (s, n)
      else s <- iteration inp s ;; main_loop rest s (S n)
  end.

(** [max(finalscore)] after the loop. *)
Definition highest_score (s : state) : result Z :=
  match map (fun a => getitem (Ai.best a) 0) (autoinput s) with
  | [] => Raise ValueError
  | r :: rs =>
      fold_left (fun acc r => m <- acc ;; v <- r ;; Ok (Z.max m v)) rs r
  end.

End Game.

(** ** Vocabulary of the statements *)

Module Lineage.

Import PyList Ai.

(** The summary components of a run list [score, death type, mark, ...]. *)
Definition score_of (l : list Z) : Z := nth 0 l 0.
Definition death_of (l : list Z) : Z := nth 1 l 0.
Definition mark_of (l : list Z) : Z := nth 2 l 0.

(** [c] supersedes [b]: higher score, or equal score and a lower death
    type. *)
Definition beats (c b : list Z) : bool :=
  (score_of c >? score_of b) ||
  ((score_of c =? score_of b) && (death_of c <? death_of b)).

(** What [resetvar] compares against [best]: [curr] after lines 505-506. *)
Definition stamped (s : ai) (score : Z) : list Z :=
  score :: deathtype s :: skipn 2 (curr s).

(** The shape every lineage has from [ai.__init__] on. *)
Definition wf (s : ai) : Prop :=
  (3 <= length (curr s))%nat /\ (3 <= length (best s))%nat /\
  0 <= count s <= len (curr s).

(** What happens to one lineage between and at run ends: [main] calls its
    methods and writes its [deathtype], [done], [deathprocessed] and [score];
    nothing here assigns [best] from outside. *)
Inductive op : Type :=
| OpPlay
| OpScorecount
| OpDeathtype (d : Z)
| OpDone (d : Z)
| OpDeathprocessed (d : Z)
| OpScore (v : Z)
| OpResetvar (score : Z).

Definition run_op (o : op) (s : ai) (g : rng) : result (ai * rng) :=
  match o with
  | OpPlay => '(_, s, g) <- play s g ;; Ok (s, g)
  | OpScorecount => s <- scorecount s ;; Ok (s, g)
  | OpDeathtype d => Ok (set_deathtype s d, g)
  | OpDone d => Ok (set_done s d, g)
  | OpDeathprocessed d => Ok (set_deathprocessed s d, g)
  | OpScore v => Ok (set_score s v, g)
  | OpResetvar sc => s <- resetvar s sc ;; Ok (s, g)
  end.

Fixpoint run_ops (os : list op) (s : ai) (g : rng) : result (ai * rng) :=
  match os with
  | [] => Ok (s, g)
  | o :: os' => '(s, g) <- run_op o s g ;; run_ops os' s g
  end.

(** [best] of [s'] is at least as good as [best] of [s]. *)
Definition no_regress (s s' : ai) : Prop :=
  score_of (best s) <= score_of (best s') /\
  (score_of (best s) = score_of (best s') ->
   death_of (best s') <= death_of (best s)).

(** A best run that scored once at cursor 202 and then hit the side of the
    second pipe at cursor 350; the lineage is replaying it at cursor 203. *)
Definition side_death : ai :=
  {| curr := [1; 1; 202] ++ repeat 0 348;
     best := [1; 1; 202] ++ repeat 0 348;
     count := 203; compframe := 350; deathtype := 1;
     deathprocessed := 0; done := 0; score := 1 |}.

(** A best run that scored once at cursor 202 and then left the screen at
    cursor 260; the lineage is replaying it at cursor 250. *)
Definition offscreen_death : ai :=
  {| curr := [1; 2; 202] ++ repeat 0 258;
     best := [1; 2; 202] ++ repeat 0 258;
     count := 250; compframe := 260; deathtype := 2;
     deathprocessed := 0; done := 0; score := 1 |}.

(** The part of a lineage that [play] leaves alone, and the shape it
    keeps. *)
Definition touched (s s' : ai) : Prop :=
  best s' = best s /\ count s' = count s /\ compframe s' = compframe s /\
  length (curr s) = length (curr s').

(** A tape whose every raw entry is [v]. *)
Definition constant_tape (v : Z) : rng := mkRng (fun _ => v) 0.

End Lineage.

Module Scenario.

Import Game.

(** Whether the event loop of one iteration gets to an ESCAPE key-up before
    it breaks out on a QUIT. *)
Fixpoint escape_reached (es : list event) : bool :=
  match es with
  | [] => false
  | e :: es' =>
      if is_escape e then true
      else if is_quit e then false
      else escape_reached es'
  end.

(** The states [main] goes through when [birdnum] is 0 and no player bird
    is overlaid. *)
Definition unpopulated (s : state) : Prop :=
  birds s = [] /\ autoinput s = [] /\ player s = 0.

(** [birds[i].msec_to_climb = Bird.CLIMB_DURATION] *)
Definition ascend (b : Bird.t) : Bird.t :=
  Bird.set_msec_to_climb b Bird.CLIMB_DURATION.

(** An iteration in which nothing happens: no events, no overlaps. *)
Definition idle : tick_input := mkInput [] (fun _ _ => false).

(** A bird eight frames into a climb: [200 - 8 * 1000/60] ms remain. *)
Definition mid_climb : Bird.t := Bird.mk 50 200 (200 / 3).

End Scenario.

(** ** Vocabulary for whole runs *)

Module Runs.

Import PyList Ai Lineage.

(** The first test of [play]: nothing to refine against, or the cursor is at
    the end of [curr]. *)
Definition frontier (s : ai) : bool :=
  eqb (best s) [0; 2; 0] || (count s >? len (curr s) - 1).

(** The upper bounds of the [randint(0, hi)] draws that [play] stores at the
    cursor when it is not at the frontier, in the order it makes them. *)
Definition gates (s : ai) : list Z :=
  if count s >? mark_of (best s) then
    (if death_of (best s) =? 2 then [25] else []) ++
    (if death_of (best s) =? 1 then
       if past_half (count s) (compframe s) (mark_of (best s))
       then [25] else []
     else
       if count s >? compframe s - 20 then [30] else [])
  else [].

(** Storing one draw per bound at position [n]. *)
Fixpoint store_draws (his : list Z) (c : list Z) (n : nat) (g : rng)
  : list Z * rng :=
  match his with
  | [] => (c, g)
  | hi :: his' =>
      let (r, g') := randint 0 hi g in
      store_draws his' (update c n r) n g'
  end.

(** [n] successive calls of [play]; the actions come out in call order. *)
Fixpoint plays (n : nat) (s : ai) (g : rng) : result (list Z * ai * rng) :=
  match n with
  | O => Ok ([], s, g)
  | S m =>
      '(v, s, g) <- play s g ;;
      '(vs, s, g) <- plays m s g ;;
      Ok (v :: vs, s, g)
  end.

(** Every recorded action (the entries after the three summary slots) is in
    the range of the widest draw. *)
Definition actions_in_range (l : list Z) : Prop :=
  Forall (fun v => 0 <= v <= 30) (skipn 3 l).

(** [n] single-frame updates of a pipe pair. *)
Definition scrolled (n : nat) (p : PipePair.t) : PipePair.t :=
  Nat.iter n (fun q => PipePair.update q 1) p.

End Runs.

(** ** Vocabulary for the phases of an iteration *)

Module Phases.

Import Game.

(** [any(p.collides_with(bird) for p in pipes)] *)
Definition hit (collide : PipePair.t -> Bird.t -> bool)
           (pipes : list PipePair.t) (b : Bird.t) : bool :=
  existsb (fun p => collide p b) pipes.

(** The test of line 434: the bird's integer y lies strictly between the
    last body piece of the top pipe of [p0] and the end piece of its bottom
    pipe. *)
Definition in_band (p0 : PipePair.t) (b : Bird.t) : bool :=
  (Bird.rect_y b >? (PipePair.top_pieces p0 - 1) * PipePair.PIECE_HEIGHT)
  && (Bird.rect_y b <?
      WIN_HEIGHT - PipePair.bottom_pieces p0 * PipePair.PIECE_HEIGHT).

(** Lines 430-439 on the lineage: processed, done, and classified. *)
Definition killed (a : Ai.ai) (d : Z) : Ai.ai :=
  Ai.set_deathtype (Ai.set_done (Ai.set_deathprocessed a 1) 1) d.

(** The test of line 465. *)
Definition newly_passed (p : PipePair.t) : bool :=
  Rltb (PipePair.x p + IZR PipePair.WIDTH) (IZR BIRD_X) &&
  negb (PipePair.score_counted p).

(** The condition of line 356 on the state at the top of an iteration. *)
Definition resets (s : state) : bool :=
  (compute_restart (autoinput s) =? 1) &&
  ((player s =? 0) || (player s =? -1) || truthy (firstcheck s)).

(** The body of the collision loop on one bird and its lineage. *)
Definition collision_outcome (collide : PipePair.t -> Bird.t -> bool)
           (pipes : list PipePair.t) (b : Bird.t) (a : Ai.ai)
           (b' : Bird.t) (a' : Ai.ai) : Prop :=
  if (Ai.deathprocessed a =? 0) && (hit collide pipes b || out_of_bounds b)
  then
    b' = Bird.set_x b (-100)%R /\
    exists d,
      a' = killed a d /\
      (hit collide pipes b = false -> d = 2) /\
      (hit collide pipes b = true ->
       exists p0 rest,
         pipes = p0 :: rest /\ d = if in_band p0 b then 0 else 1)
  else b' = b /\ a' = a.

(** The same outcome read off the fields: the bird is parked at x = -100
    with its height and climb timer kept; the lineage is processed and done,
    its run data kept, and its death type is 2 without a pipe overlap and
    else 0 or 1 by the band of the first pipe of the queue. *)
Definition collision_effect (collide : PipePair.t -> Bird.t -> bool)
           (pipes : list PipePair.t) (b : Bird.t) (a : Ai.ai)
           (b' : Bird.t) (a' : Ai.ai) : Prop :=
  if (Ai.deathprocessed a =? 0) && (hit collide pipes b || out_of_bounds b)
  then
    Bird.x b' = (-100)%R /\ Bird.y b' = Bird.y b /\
    Bird.msec_to_climb b' = Bird.msec_to_climb b /\
    Ai.deathprocessed a' = 1 /\ Ai.done a' = 1 /\
    Ai.curr a' = Ai.curr a /\ Ai.best a' = Ai.best a /\
    Ai.count a' = Ai.count a /\ Ai.compframe a' = Ai.compframe a /\
    Ai.score a' = Ai.score a /\
    (hit collide pipes b = false -> Ai.deathtype a' = 2) /\
    (hit collide pipes b = true ->
     exists p0 rest,
       pipes = p0 :: rest /\
       Ai.deathtype a' = if in_band p0 b then 0 else 1)
  else b' = b /\ a' = a.

(** What the scoring pass may do to a lineage: [k] more points if it is
    alive, nothing otherwise; [done] and [best] stay. *)
Definition gains (k : Z) (a a' : Ai.ai) : Prop :=
  Ai.done a' = Ai.done a /\ Ai.best a' = Ai.best a /\
  Ai.score a' = Ai.score a + (if Ai.done a =? 0 then k else 0).

(** [a'] is [a] with possibly another [best], taken over from a lineage
    of [ais]. *)
Definition adopted (ais : list Ai.ai) (a a' : Ai.ai) : Prop :=
  a' = Ai.set_best a (Ai.best a') /\
  exists l, In l ais /\ Ai.best a' = Ai.best l.

(** A lineage at the start of a run. *)
Definition started (a : Ai.ai) : Prop :=
  Lineage.wf a /\ Ai.done a = 0 /\ Ai.deathprocessed a = 0 /\
  Ai.curr a = Ai.best a /\ Ai.count a = 2.

(** The loop state [main] sets up and maintains: one well-formed lineage per
    bird, a bound player bird whenever [player] is non-zero, and a schedule
    index inside [PS]. *)
Definition sound (s : state) : Prop :=
  Forall Lineage.wf (autoinput s) /\
  length (birds s) = length (autoinput s) /\
  (player s <> 0 -> bird s <> None) /\
  0 <= pscount s < 10.

(** Successive unpaused calls of the spawn step, one per given frame
    clock value. *)
Fixpoint spawns (frames : list Z) (pscount : Z) (pipes : list PipePair.t)
  : result (Z * list PipePair.t) :=
  match frames with
  | [] => Ok (pscount, pipes)
  | fc :: rest =>
      '(pscount, pipes) <- spawn false fc pscount pipes ;;
      spawns rest pscount pipes
  end.

(** The loop state one iteration after a reset: [restart] was 1, the
    reset block cleared [firstcheck], the score and the pipes, the spawn
    step then added the first pipe of the schedule, and the frame clock has
    advanced by one unless the iteration ended paused. *)
Definition freshly_reset (s : state) : Prop :=
  restart s = 1 /\ firstcheck s = 0 /\ pscount s = 1 /\
  map PipePair.bottom_pieces (pipes s) = [nth 0 PS 0 + 1] /\
  frame_clock s = (if paused s then 0 else 1) /\ score s = 0.

End Phases.

(** * Properties *)

(** ** Python list indexing *)

Module PyListFacts.

Import PyList.

Section Facts.

Context {A : Type}.
Implicit Types (l : list A) (i : Z) (n : nat) (v : A).

Lemma index_nonneg l i :
  0 <= i < len l -> index l i = Some (Z.to_nat i).
Proof.
  intros H. unfold index.
  replace (0 <=? i) with true by (symmetry; apply Z.leb_le; lia).
  replace (i <? len l) with true by (symmetry; apply Z.ltb_lt; lia).
  reflexivity.
Qed.

Lemma length_update l n v : length (update l n v) = length l.
Proof.
  revert n; induction l as [|h t IH]; intros [|n]; simpl; auto.
Qed.

Lemma getitem_ok l i d :
  0 <= i < len l -> getitem l i = Ok (nth (Z.to_nat i) l d).
Proof.
  intros H. unfold getitem. rewrite index_nonneg by assumption.
  assert (Hn : (Z.to_nat i < length l)%nat) by (unfold len in H; lia).
  rewrite (nth_error_nth' l d Hn). reflexivity.
Qed.

Lemma setitem_ok l i v :
  0 <= i < len l -> setitem l i v = Ok (update l (Z.to_nat i) v).
Proof.
  intros H. unfold setitem. rewrite index_nonneg by assumption.
  reflexivity.
Qed.

Lemma len_update l n v : len (update l n v) = len l.
Proof. unfold len. rewrite length_update. reflexivity. Qed.

Lemma len_app l v : len (l ++ [v]) = len l + 1.
Proof. unfold len. rewrite length_app. simpl. lia. Qed.

End Facts.

End PyListFacts.

(** ** The optimiser: run-end comparison *)

Module AiFacts.

Import PyList PyListFacts Ai Lineage.

Lemma stamp_curr (s : ai) (sc : Z) :
  (2 <= length (curr s))%nat ->
  c <- setitem (curr s) 0 sc ;; setitem c 1 (deathtype s)
  = Ok (stamped s sc).
Proof.
  intros H. destruct s as [c b n f d dp dn scr]; simpl in *.
  destruct c as [|c0 [|c1 t]]; simpl in H; try lia.
  rewrite setitem_ok by (unfold len; simpl length; lia).
  simpl bind. rewrite setitem_ok by (unfold len; simpl length; lia).
  reflexivity.
Qed.

Lemma getitem_0 (l : list Z) :
  (1 <= length l)%nat -> getitem l 0 = Ok (score_of l).
Proof.
  intros H. apply getitem_ok. unfold len. lia.
Qed.

Lemma getitem_1 (l : list Z) :
  (2 <= length l)%nat -> getitem l 1 = Ok (death_of l).
Proof.
  intros H. apply (getitem_ok l 1 0). unfold len. lia.
Qed.

Lemma getitem_2 (l : list Z) :
  (3 <= length l)%nat -> getitem l 2 = Ok (mark_of l).
Proof.
  intros H. apply (getitem_ok l 2 0). unfold len. lia.
Qed.

(** [resetvar] in closed form. *)
Lemma resetvar_eq (s : ai) (sc : Z) :
  (2 <= length (curr s))%nat -> (2 <= length (best s))%nat ->
  resetvar s sc =
  Ok (let s1 := set_curr s (stamped s sc) in
      let s2 := if beats (stamped s sc) (best s) then promote s1 else s1 in
      set_count (set_curr s2 (best s2)) 2).
Proof.
  intros Hc Hb. unfold resetvar.
  pose proof (stamp_curr s sc Hc) as E.
  destruct (setitem (curr s) 0 sc) as [c|e]; simpl in E;
    [|discriminate].
  simpl. rewrite E. simpl.
  assert (Hs : (2 <= length (stamped s sc))%nat) by (simpl; lia).
  rewrite !(getitem_0 (best s)) by lia.
  rewrite !(getitem_1 (stamped s sc)) by lia.
  rewrite !(getitem_1 (best s)) by lia.
  unfold beats. change (score_of (stamped s sc)) with sc.
  unfold bind.
  destruct (sc >? score_of (best s)); simpl.
  - reflexivity.
  - destruct (sc =? score_of (best s)); simpl.
    + destruct (death_of (stamped s sc) <? death_of (best s)); reflexivity.
    + reflexivity.
Qed.

(** C1. When [resetvar] is called with the run's final score, [best] becomes
    a copy of the stamped [curr] exactly when that run has a strictly
    higher score, or the same score and a strictly lower death type, and
    then [compframe] takes the cursor value; otherwise both are kept.  In
    every case [curr] ends up a copy of [best] and the cursor is 2. *)
Theorem resetvar_spec (s : ai) (sc : Z) :
  (2 <= length (curr s))%nat -> (2 <= length (best s))%nat ->
  exists s',
    resetvar s sc = Ok s' /\
    best s' = (if beats (stamped s sc) (best s)
               then stamped s sc else best s) /\
    compframe s' = (if beats (stamped s sc) (best s)
                    then count s else compframe s) /\
    curr s' = best s' /\
    count s' = 2 /\
    deathtype s' = deathtype s /\ score s' = score s /\
    done s' = done s /\ deathprocessed s' = deathprocessed s.
Proof.
  intros Hc Hb. eexists. split; [apply resetvar_eq; assumption|].
  cbv zeta. destruct (beats (stamped s sc) (best s)); simpl;
    repeat split; reflexivity.
Qed.

(** At the end of the very first run ([best] still the sentinel): a run
    that scored 3 and died on a pipe side is promoted. *)
Lemma resetvar_spec_witness :
  exists s',
    resetvar (mkAi [0; 2; 7; 4; 1; 9] [0; 2; 0] 6 0 1 1 1 3) 3 = Ok s' /\
    best s' = [3; 1; 7; 4; 1; 9] /\ compframe s' = 6 /\
    curr s' = best s' /\ count s' = 2 /\
    deathtype s' = 1 /\ score s' = 3 /\ done s' = 1 /\
    deathprocessed s' = 1.
Proof.
  apply (resetvar_spec (mkAi [0; 2; 7; 4; 1; 9] [0; 2; 0] 6 0 1 1 1 3) 3);
    simpl; lia.
Defined.

(** *** Every method succeeds on a well-formed lineage *)

Lemma reroll_ok (s : ai) (hi : Z) (g : rng) :
  0 <= count s < len (curr s) ->
  exists c g',
    reroll s hi g = Ok (set_curr s c, g') /\
    length c = length (curr s).
Proof.
  intros H. unfold reroll. destruct (randint 0 hi g) as [r g'].
  rewrite setitem_ok by assumption. simpl.
  eexists _, _. split; [reflexivity|]. apply length_update.
Qed.

Lemma touched_refl s : touched s s.
Proof. repeat split. Qed.

Lemma touched_reroll (s0 s : ai) (hi : Z) (g : rng) :
  touched s0 s -> 0 <= count s0 < len (curr s0) ->
  exists s' g', reroll s hi g = Ok (s', g') /\ touched s0 s'.
Proof.
  intros (Hb & Hn & Hf & Hl) H.
  destruct (reroll_ok s hi g) as (c & g' & E & L).
  { unfold len in *. rewrite Hn, <- Hl. assumption. }
  exists (set_curr s c), g'. split; [assumption|].
  repeat split; simpl; congruence.
Qed.

Lemma play_ok (s : ai) (g : rng) :
  wf s ->
  exists v s' g', play s g = Ok (v, s', g') /\ wf s' /\ best s' = best s.
Proof.
  intros (Hc & Hb & Hn). unfold play.
  destruct (eqb (best s) [0; 2; 0] || (count s >? len (curr s) - 1))
    eqn:Hfront.
  - destruct (randint 0 25 g) as [r g']. simpl.
    rewrite (getitem_ok _ _ 0) by (rewrite len_app; lia).
    eexists _, _, _. split; [reflexivity|].
    repeat split; simpl; try rewrite length_app; try rewrite len_app;
      simpl; lia.
  - apply orb_false_iff in Hfront as [_ Hin].
    rewrite Z.gtb_ltb in Hin. apply Z.ltb_ge in Hin.
    assert (Hcur : 0 <= count s < len (curr s)) by lia.
    assert (Hfin : forall (s' : ai) (g' : rng),
               touched s s' ->
               exists v s'' g'',
                 (v <- getitem (curr s') (count s' + 1 - 1) ;;
                  Ok (v, set_count s' (count s' + 1), g'))
                 = Ok (v, s'', g'') /\
                 wf s'' /\ best s'' = best s).
    { intros s' g' (Eb & En & Ef & El).
      rewrite (getitem_ok _ _ 0) by (unfold len in *; lia).
      eexists _, _, _. split; [reflexivity|].
      repeat split; simpl; unfold len in *; rewrite ?Eb; try lia.
      reflexivity. }
    rewrite (getitem_2 (best s)) by lia. simpl bind.
    destruct (count s >? mark_of (best s)).
    + rewrite (getitem_1 (best s)) by lia. simpl bind.
      assert (Hfirst : exists s1 g1,
                 (if death_of (best s) =? 2 then reroll s 25 g
                  else Ok (s, g)) = Ok (s1, g1) /\ touched s s1).
      { destruct (death_of (best s) =? 2).
        - apply touched_reroll; [apply touched_refl | assumption].
        - eexists _, _. split; [reflexivity | apply touched_refl]. }
      destruct Hfirst as (s1 & g1 & E1 & T1). rewrite E1. simpl bind.
      pose proof T1 as (Eb1 & En1 & Ef1 & El1).
      rewrite Eb1. rewrite (getitem_1 (best s)) by lia. simpl bind.
      assert (Hsecond : exists s2 g2,
                 (if death_of (best s) =? 1 then
                    b2 <- getitem (best s) 2 ;;
                    if past_half (count s1) (compframe s1) b2
                    then reroll s1 25 g1 else Ok (s1, g1)
                  else
                    let aux_count := compframe s1 - 20 in
                    if count s1 >? aux_count then reroll s1 30 g1
                    else Ok (s1, g1)) = Ok (s2, g2) /\ touched s s2).
      { destruct (death_of (best s) =? 1).
        - rewrite (getitem_2 (best s)) by lia. simpl bind.
          destruct (past_half _ _ _).
          + apply touched_reroll; assumption.
          + eexists _, _. split; [reflexivity | assumption].
        - cbv zeta. destruct (count s1 >? _).
          + apply touched_reroll; assumption.
          + eexists _, _. split; [reflexivity | assumption]. }
      destruct Hsecond as (s2 & g2 & E2 & T2). cbv zeta in E2.
      rewrite E2. simpl bind.
      apply Hfin; assumption.
    + simpl bind. apply Hfin, touched_refl.
Qed.

Lemma scorecount_ok (s : ai) :
  wf s -> exists s', scorecount s = Ok s' /\ wf s' /\ best s' = best s.
Proof.
  intros (Hc & Hb & Hn). unfold scorecount.
  rewrite setitem_ok by (unfold len; lia). simpl.
  eexists. split; [reflexivity|].
  repeat split; simpl; rewrite ?length_update, ?len_update; lia.
Qed.

Lemma beats_no_regress (c b : list Z) :
  beats c b = true ->
  score_of b <= score_of c /\
  (score_of b = score_of c -> death_of c <= death_of b).
Proof.
  unfold beats. intros H. apply orb_true_iff in H as [H|H].
  - rewrite Z.gtb_ltb in H. apply Z.ltb_lt in H. lia.
  - apply andb_true_iff in H as [H1 H2].
    apply Z.eqb_eq in H1. apply Z.ltb_lt in H2. lia.
Qed.

Lemma resetvar_ok (s : ai) (sc : Z) :
  wf s -> exists s', resetvar s sc = Ok s' /\ wf s' /\ no_regress s s'.
Proof.
  intros (Hc & Hb & Hn).
  rewrite resetvar_eq by lia. eexists. split; [reflexivity|].
  assert (Hst : (3 <= length (stamped s sc))%nat).
  { change (length (stamped s sc))
      with (S (S (length (skipn 2 (curr s))))).
    rewrite length_skipn. lia. }
  cbv zeta. unfold wf, no_regress.
  destruct (beats (stamped s sc) (best s)) eqn:B;
    cbn [curr best count set_count set_curr promote set_best
         set_compframe].
  - apply beats_no_regress in B. unfold len. repeat split; lia.
  - unfold len. repeat split; lia.
Qed.

Lemma no_regress_refl (s s' : ai) : best s' = best s -> no_regress s s'.
Proof. intros E. unfold no_regress. rewrite E. lia. Qed.

Lemma no_regress_trans (a b c : ai) :
  no_regress a b -> no_regress b c -> no_regress a c.
Proof. unfold no_regress. intros [H1 H2] [H3 H4]. split; lia. Qed.

Lemma run_op_ok (o : op) (s : ai) (g : rng) :
  wf s ->
  exists s' g', run_op o s g = Ok (s', g') /\ wf s' /\ no_regress s s'.
Proof.
  intros W. destruct o as [| |d|d|d|v|sc]; simpl;
    try (eexists _, _; split; [reflexivity|]; split;
         [exact W | apply no_regress_refl; reflexivity]).
  - destruct (play_ok s g W) as (v & s' & g' & E & W' & B).
    rewrite E. simpl. exists s', g'.
    split; [reflexivity | split; [assumption |]].
    apply no_regress_refl; assumption.
  - destruct (scorecount_ok s W) as (s' & E & W' & B).
    rewrite E. simpl. exists s', g.
    split; [reflexivity | split; [assumption |]].
    apply no_regress_refl; assumption.
  - destruct (resetvar_ok s sc W) as (s' & E & W' & B).
    rewrite E. simpl. exists s', g.
    split; [reflexivity | split; assumption].
Qed.

(** C2. Along any sequence of method calls and field writes on one lineage
    ([play], [scorecount], the writes [main] makes, and [resetvar] with
    arbitrary final scores) in which [best] is only assigned by [resetvar],
    every call succeeds, the score stored in [best] never decreases, and while it
    stays the same the death type stored in [best] never increases.  With
    [os = [OpResetvar sc]] this is the statement for a single call; the
    resulting lineage is well formed again, so it applies from one call to
    the next. *)
Theorem best_never_regresses (os : list op) (s : ai) (g : rng) :
  wf s ->
  exists s' g',
    run_ops os s g = Ok (s', g') /\ wf s' /\
    score_of (best s) <= score_of (best s') /\
    (score_of (best s) = score_of (best s') ->
     death_of (best s') <= death_of (best s)).
Proof.
  revert s g. induction os as [|o os IH]; intros s g W; simpl.
  - exists s, g. repeat split; try apply W; lia.
  - destruct (run_op_ok o s g W) as (s1 & g1 & E & W1 & R1).
    rewrite E. simpl.
    destruct (IH s1 g1 W1) as (s2 & g2 & E2 & W2 & R2).
    exists s2, g2. split; [assumption|]. split; [assumption|].
    apply (no_regress_trans s s1 s2); [assumption | exact R2].
Qed.

(** Two runs of a fresh lineage: the first scores 1 and dies off screen,
    the second scores nothing and dies on a pipe side. *)
Lemma best_never_regresses_witness :
  exists s' g',
    run_ops [OpDone 0; OpPlay; OpPlay; OpScore 1; OpScorecount; OpPlay;
             OpDone 1; OpResetvar 1; OpScore 0;
             OpPlay; OpDeathtype 1; OpResetvar 0]
            init (constant_tape 1) = Ok (s', g') /\ wf s' /\
    score_of (best init) <= score_of (best s') /\
    (score_of (best init) = score_of (best s') ->
     death_of (best s') <= death_of (best init)).
Proof.
  apply (best_never_regresses _ init (constant_tape 1)).
  unfold wf, len. simpl. lia.
Defined.

(** *** The mutation rule of [play] *)

(** The side-collision test compares the cursor with half the distance
    between the two marks, not with the tick halfway between them. *)
Lemma past_half_spec (cnt frame mark : Z) :
  past_half cnt frame mark = true <-> frame - mark < 2 * cnt.
Proof.
  unfold past_half. cbv zeta. rewrite negb_true_iff.
  split.
  - intros H.
    destruct (Z_lt_ge_dec (frame - mark) (2 * cnt)) as [L|G]; [exact L|].
    assert (T : Qle_bool (inject_Z cnt)
                  (inject_Z (frame - mark) / inject_Z 2) = true).
    { apply Qle_bool_iff. unfold Qle, Qdiv, Qmult, Qinv, inject_Z.
      simpl. lia. }
    congruence.
  - intros H.
    destruct (Qle_bool (inject_Z cnt)
                (inject_Z (frame - mark) / inject_Z 2)) eqn:E;
      [|reflexivity].
    apply Qle_bool_iff in E.
    unfold Qle, Qdiv, Qmult, Qinv, inject_Z in E. simpl in E. lia.
Qed.

(** C3. [best] died on a pipe side (death type 1), its last score change is
    at cursor 202 and the comparison tick is 350, so the midpoint is 276.
    At cursor 203, past the last score change and well before the
    midpoint, [play] nevertheless replaces the recorded action 0 by a
    fresh draw and returns it: the threshold it evaluates is
    [(350 - 202) / 2 = 74]. *)
Theorem play_side_death_rerolls_before_midpoint :
  death_of (best side_death) = 1 /\
  mark_of (best side_death) < count side_death /\
  2 * count side_death
    <= compframe side_death + mark_of (best side_death) /\
  getitem (best side_death) (count side_death) = Ok 0 /\
  exists s' g',
    play side_death (constant_tape 7) = Ok (7, s', g') /\
    getitem (curr s') (count side_death) = Ok 7.
Proof.
  split; [reflexivity|]. split; [reflexivity|].
  split; [discriminate|]. split; [reflexivity|].
  eexists _, _. split; [vm_compute; reflexivity|].
  vm_compute. reflexivity.
Qed.

(** C4. [best] left the screen (death type 2) at comparison tick 260 after
    its last score change at cursor 202.  At cursor 250 [play] first
    re-rolls the action from 0..25 and then, because the [else] of the
    side-collision test also runs and 250 > 260 - 20, re-rolls it again
    from 0..30: with a tape that yields 30 the stored and returned action
    is 30, outside 0..25. *)
Theorem play_offscreen_death_second_draw :
  death_of (best offscreen_death) = 2 /\
  mark_of (best offscreen_death) < count offscreen_death /\
  exists s' g',
    play offscreen_death (constant_tape 30) = Ok (30, s', g') /\
    getitem (curr s') (count offscreen_death) = Ok 30 /\
    used g' = 2%nat.
Proof.
  split; [reflexivity|]. split; [reflexivity|].
  eexists _, _. split; [vm_compute; reflexivity|].
  split; vm_compute; reflexivity.
Qed.

End AiFacts.

(** ** The bird's vertical motion *)

Module BirdFacts.

Import Bird.
Open Scope R_scope.

Lemma frames_to_msec_nonneg (delta : Z) :
  (0 <= delta)%Z -> 0 <= frames_to_msec delta.
Proof.
  intros H. apply IZR_le in H. unfold frames_to_msec, FPS. lra.
Qed.

Lemma frames_to_msec_1 : frames_to_msec 1 = 50 / 3.
Proof. unfold frames_to_msec, FPS. lra. Qed.

(** The eased factor [1 - cos _] lies between 0 and 2. *)
Lemma ease_bounds (a : R) : 0 <= 1 - cos a <= 2.
Proof. pose proof (COS_bound a). lra. Qed.

Lemma update_climb (b : t) (delta : Z) :
  0 < msec_to_climb b ->
  update b delta =
  mk (x b)
     (y b - CLIMB_SPEED * frames_to_msec delta *
            (1 - cos ((1 - msec_to_climb b / CLIMB_DURATION) * PI)))
     (msec_to_climb b - frames_to_msec delta).
Proof.
  intros H. unfold update. destruct (Rlt_dec 0 (msec_to_climb b));
    [reflexivity | contradiction].
Qed.

Lemma update_sink (b : t) (delta : Z) :
  msec_to_climb b <= 0 ->
  update b delta =
  mk (x b) (y b + SINK_SPEED * frames_to_msec delta) (msec_to_climb b).
Proof.
  intros H. unfold update. destruct (Rlt_dec 0 (msec_to_climb b));
    [lra | reflexivity].
Qed.




Lemma mid_climb_step :
  y (update Scenario.mid_climb 1) - y Scenario.mid_climb = - (15 / 2).
Proof.
  rewrite update_climb by (simpl; lra). simpl.
  replace ((1 - 200 / 3 / CLIMB_DURATION) * PI) with (2 * (PI / 3))
    by (unfold CLIMB_DURATION; field).
  rewrite cos_2PI3, frames_to_msec_1. unfold CLIMB_SPEED. lra.
Qed.

(** C6 as stated fails two thirds of the way through a climb: one frame
    moves the bird by 7.5 px, against a claimed bound of 5 px. *)
Lemma update_exceeds_average_speed :
  Rabs (y (update Scenario.mid_climb 1) - y Scenario.mid_climb)
  > Rmax SINK_SPEED CLIMB_SPEED * frames_to_msec 1.
Proof.
  rewrite mid_climb_step, Rabs_Ropp, Rabs_pos_eq by lra.
  rewrite frames_to_msec_1. unfold Rmax, SINK_SPEED, CLIMB_SPEED.
  destruct (Rle_dec (2 / 10) (3 / 10)); lra.
Qed.

(** C6, as the code has it.  For every bird and every non-negative number
    of elapsed frames, one [update] changes [y] by at most
    [max(SINK_SPEED, 2 * CLIMB_SPEED)] times the elapsed milliseconds:
    [CLIMB_SPEED] is the average of the eased climb, whose peak is twice
    that. *)
Theorem update_step_bound (b : t) (delta : Z) :
  (0 <= delta)%Z ->
  Rabs (y (update b delta) - y b)
  <= Rmax SINK_SPEED (2 * CLIMB_SPEED) * frames_to_msec delta.
Proof.
  intros D. apply frames_to_msec_nonneg in D.
  assert (M : Rmax SINK_SPEED (2 * CLIMB_SPEED) = 6 / 10).
  { unfold Rmax, SINK_SPEED, CLIMB_SPEED.
    destruct (Rle_dec (2 / 10) (2 * (3 / 10))); lra. }
  rewrite M.
  destruct (Rlt_dec 0 (msec_to_climb b)) as [P|N].
  - rewrite update_climb by assumption. simpl.
    pose proof (ease_bounds ((1 - msec_to_climb b / CLIMB_DURATION) * PI)).
    unfold CLIMB_SPEED. apply Rabs_le. split; nra.
  - rewrite update_sink by lra. simpl.
    unfold SINK_SPEED. apply Rabs_le. split; nra.
Qed.

Lemma update_step_bound_witness :
  Rabs (y (update Scenario.mid_climb 1) - y Scenario.mid_climb)
  <= Rmax SINK_SPEED (2 * CLIMB_SPEED) * frames_to_msec 1.
Proof. apply (update_step_bound Scenario.mid_climb 1). lia. Defined.

End BirdFacts.

(** ** Obstacle construction *)

Module PipeFacts.

Import PipePair.

Lemma total_pipe_body_pieces_10 : total_pipe_body_pieces = 10.
Proof. reflexivity. Qed.

(** [__init__] has no failing path; the counts only depend on [pipenum]. *)
Lemma init_counts (pipenum : Z) :
  exists pp,
    init pipenum = Ok pp /\
    bottom_pieces pp = pipenum + 1 /\
    top_pieces pp = total_pipe_body_pieces - pipenum + 1.
Proof.
  unfold init. eexists. split; [reflexivity|]. split; reflexivity.
Qed.

(** C7. For every value of the ten-entry schedule, the pipe pair built from
    it has [top_pieces + bottom_pieces = total_pipe_body_pieces + 2] once
    the end pieces are counted in, where [total_pipe_body_pieces] is
    [int((WIN_HEIGHT - 3 * Bird.HEIGHT - 3 * PIECE_HEIGHT) / PIECE_HEIGHT)],
    that is 10. *)
Theorem schedule_piece_counts (pipenum : Z) :
  In pipenum Game.PS ->
  exists pp,
    init pipenum = Ok pp /\
    top_pieces pp + bottom_pieces pp = total_pipe_body_pieces + 2.
Proof.
  intros _. destruct (init_counts pipenum) as (pp & E & B & T).
  exists pp. split; [exact E|]. rewrite B, T. lia.
Qed.

Lemma schedule_piece_counts_witness :
  exists pp,
    init 8 = Ok pp /\
    top_pieces pp + bottom_pieces pp = total_pipe_body_pieces + 2.
Proof. apply (schedule_piece_counts 8). simpl. tauto. Defined.

(** C8 as stated fails: a schedule value of 12 leaves the top pipe with
    10 - 12 = -2 body pieces, and the constructor returns an obstacle whose
    [top_pieces] is -1. *)
Lemma init_accepts_negative_top :
  total_pipe_body_pieces - 12 <= 0 /\
  exists pp, init 12 = Ok pp /\ top_pieces pp = -1.
Proof.
  split; [discriminate|]. eexists. split; reflexivity.
Qed.

(** C8, as the code has it.  Construction validates nothing and never
    fails: for every [pipenum] it returns an obstacle with
    [bottom_pieces = pipenum + 1] and
    [top_pieces = total_pipe_body_pieces - pipenum + 1], whatever their
    signs; for the ten schedule values both counts are positive. *)
Theorem init_never_fails :
  (forall pipenum,
      exists pp,
        init pipenum = Ok pp /\
        bottom_pieces pp = pipenum + 1 /\
        top_pieces pp = total_pipe_body_pieces - pipenum + 1) /\
  Forall (fun pipenum =>
            exists pp,
              init pipenum = Ok pp /\
              0 < top_pieces pp /\ 0 < bottom_pieces pp) Game.PS.
Proof.
  split; [exact init_counts|].
  unfold Game.PS.
  repeat (constructor;
          [eexists; split; [reflexivity|]; split; reflexivity|]).
  constructor.
Qed.

End PipeFacts.

(** ** The simulation loop *)

Module GameFacts.

Import PyList Game Scenario.

(** *** An empty population *)

Lemma main_init_unpopulated g : unpopulated (main_init 0 0 g).
Proof. repeat split. Qed.

Lemma handle_events_no_player es e p b :
  exists p',
    handle_events es e p 0 b = Ok (e || escape_reached es, p', b).
Proof.
  revert e p. induction es as [|ev es IH]; intros e p; simpl.
  - exists p. rewrite orb_false_r. reflexivity.
  - destruct (is_escape ev) eqn:Esc.
    + rewrite orb_true_r. exists p. rewrite orb_true_r. reflexivity.
    + rewrite orb_false_r. destruct (is_quit ev); simpl.
      * exists p. rewrite orb_false_r. reflexivity.
      * destruct (is_pause ev); [apply IH|].
        destruct (is_flap ev); apply IH.
Qed.

Lemma spawn_first paused fc pipes :
  exists ps pipes', spawn paused fc 0 pipes = Ok (ps, pipes').
Proof.
  unfold spawn. destruct (negb _).
  - eexists _, _. reflexivity.
  - eexists _, _. reflexivity.
Qed.

Lemma count_scores_unpopulated pipes sc :
  exists pipes' sc', count_scores pipes [] [] sc = Ok (pipes', [], sc').
Proof.
  revert sc. induction pipes as [|p pipes IH]; intros sc; simpl.
  - eexists _, _. reflexivity.
  - destruct (_ && _); simpl.
    + destruct (IH (sc + 1)) as (ps & sc' & E). rewrite E. simpl.
      eexists _, _. reflexivity.
    + destruct (IH sc) as (ps & sc' & E). rewrite E. simpl.
      eexists _, _. reflexivity.
Qed.

(** With nobody to play, an iteration re-runs the reset block, cannot
    fail, and sets [end] exactly when its events get to an ESCAPE. *)
Lemma iteration_unpopulated inp s :
  unpopulated s -> end_ s = false ->
  exists s',
    iteration inp s = Ok s' /\ unpopulated s' /\
    end_ s' = escape_reached (events inp).
Proof.
  intros (Hb & Ha & Hp) He.
  destruct s as [bs ais b pl pipes ps e fc rs sc pa fk g];
    simpl in *; subst.
  unfold iteration. simpl.
  destruct (spawn_first false 0 []) as (ps' & pipes' & Es).
  unfold tick. simpl. rewrite Es. simpl.
  destruct (handle_events_no_player (events inp) false false b)
    as (p' & Eh).
  rewrite Eh. simpl.
  destruct p'.
  - eexists. split; [reflexivity|]. repeat split.
  - destruct (count_scores_unpopulated
                (map (fun p => PipePair.update p 1) (retire pipes')) 0)
      as (pipes'' & sc' & Ec).
    rewrite Ec. simpl.
    eexists. split; [reflexivity|]. repeat split.
Qed.

Lemma main_loop_unpopulated inputs s n :
  unpopulated s -> end_ s = false ->
  Forall (fun inp => escape_reached (events inp) = false) inputs ->
  exists s',
    main_loop inputs s n = Ok (s', (n + length inputs)%nat) /\
    unpopulated s' /\ end_ s' = false.
Proof.
  revert s n. induction inputs as [|inp rest IH]; intros s n U E Q; simpl.
  - exists s. rewrite Nat.add_0_r. auto.
  - rewrite E. inversion Q as [|? ? Qi Qr]; subst.
    destruct (iteration_unpopulated inp s U E) as (s1 & E1 & U1 & F1).
    rewrite E1. simpl. rewrite Qi in F1.
    destruct (IH s1 (S n) U1 F1 Qr) as (s2 & E2 & U2 & F2).
    exists s2. rewrite E2. replace (n + S (length rest))%nat
      with (S n + length rest)%nat by lia. auto.
Qed.

Lemma main_loop_app inputs rest s n s' m :
  main_loop inputs s n = Ok (s', m) -> end_ s' = false ->
  main_loop (inputs ++ rest) s n = main_loop rest s' m.
Proof.
  revert s n. induction inputs as [|inp inputs IH]; intros s n E F;
    simpl in *.
  - inversion E; subst. reflexivity.
  - destruct (end_ s) eqn:Es.
    + inversion E; subst. congruence.
    + destruct (iteration inp s) as [s1|]; simpl in *; [|discriminate].
      apply IH; assumption.
Qed.

Lemma main_loop_stops inp rest s n :
  unpopulated s -> end_ s = false ->
  escape_reached (events inp) = true ->
  exists s',
    main_loop (inp :: rest) s n = Ok (s', S n) /\ end_ s' = true.
Proof.
  intros U E Q. simpl. rewrite E.
  destruct (iteration_unpopulated inp s U E) as (s1 & E1 & U1 & F1).
  rewrite E1. simpl. rewrite Q in F1. exists s1.
  destruct rest; simpl; rewrite ?F1; auto.
Qed.

(** Once such a loop is left, [max(finalscore)] is taken of an empty list. *)
Lemma highest_score_unpopulated s :
  unpopulated s -> highest_score s = Raise ValueError.
Proof. intros (_ & Ha & _). unfold highest_score. rewrite Ha. reflexivity. Qed.

(** C9 as stated fails: with no birds and no player the loop is still
    running after three eventless iterations. *)
Lemma zero_population_keeps_looping :
  exists s,
    main_loop [idle; idle; idle] (main_init 0 0 (Lineage.constant_tape 0))
              0 = Ok (s, 3%nat) /\
    end_ s = false.
Proof.
  destruct (main_loop_unpopulated [idle; idle; idle]
              (main_init 0 0 (Lineage.constant_tape 0)) 0)
    as (s & E & _ & F).
  - apply main_init_unpopulated.
  - reflexivity.
  - repeat constructor.
  - exists s. split; assumption.
Qed.

(** *** The machine learning call *)

Lemma ml_body_spec (b : Bird.t) (a : Ai.ai) (g : rng) :
  Lineage.wf a ->
  exists b' a' g',
    ml_body b a g = Ok (b', a', g') /\
    (Ai.done a = 0 ->
     exists fly,
       Ai.play a g = Ok (fly, a', g') /\
       (fly = 1 -> b' = ascend b) /\ (fly <> 1 -> b' = b)) /\
    (Ai.done a <> 0 -> b' = b /\ a' = a).
Proof.
  intros W. unfold ml_body.
  destruct (Ai.done a =? 0) eqn:D.
  - apply Z.eqb_eq in D.
    destruct (AiFacts.play_ok a g W) as (fly & a' & g' & E & _ & _).
    rewrite E. simpl. destruct (fly =? 1) eqn:F.
    + apply Z.eqb_eq in F. eexists _, _, _. split; [reflexivity|].
      split; [|congruence]. intros _. exists fly.
      split; [reflexivity|]. split; [reflexivity | congruence].
    + apply Z.eqb_neq in F. eexists _, _, _. split; [reflexivity|].
      split; [|congruence]. intros _. exists fly.
      split; [reflexivity|]. split; [congruence | reflexivity].
  - apply Z.eqb_neq in D. eexists _, _, _. split; [reflexivity|].
    split; [congruence|]. intros _. split; reflexivity.
Qed.

(** C10. On a tick, for a population of well-formed lineages the machine
    learning call succeeds and, for every lineage [i]: if it is still
    alive ([done == 0]) its [play] is called once and its bird's
    [msec_to_climb] becomes [CLIMB_DURATION], position unchanged, when the
    returned value is the integer 1, while for every other returned value
    the bird is left as it was; a lineage that is not alive is not asked and
    neither it nor its bird changes. *)
Theorem ml_call_ascends_iff_one
        (birds : list Bird.t) (ais : list Ai.ai) (g : rng) :
  Forall Lineage.wf ais -> length birds = length ais ->
  exists birds' ais' g',
    ml_call birds ais g = Ok (birds', ais', g') /\
    forall i b a,
      nth_error birds i = Some b -> nth_error ais i = Some a ->
      exists b' a',
        nth_error birds' i = Some b' /\ nth_error ais' i = Some a' /\
        (Ai.done a = 0 ->
         exists gi fly gi',
           Ai.play a gi = Ok (fly, a', gi') /\
           (fly = 1 ->
            Bird.msec_to_climb b' = Bird.CLIMB_DURATION /\
            Bird.x b' = Bird.x b /\ Bird.y b' = Bird.y b) /\
           (fly <> 1 -> b' = b)) /\
        (Ai.done a <> 0 -> b' = b /\ a' = a).
Proof.
  revert ais g. induction birds as [|b0 birds IH]; intros ais g W L.
  - destruct ais; [|discriminate]. simpl.
    eexists _, _, _. split; [reflexivity|].
    intros [|i] b a H; discriminate.
  - destruct ais as [|a0 ais]; [discriminate|].
    inversion W as [|? ? W0 Wr]; subst. simpl in L. injection L as L.
    simpl.
    destruct (ml_body_spec b0 a0 g W0) as (b1 & a1 & g1 & E & Alive & Dead).
    rewrite E. simpl.
    destruct (IH ais g1 Wr L) as (bs & as' & g2 & E2 & Rest).
    rewrite E2. simpl.
    eexists _, _, _. split; [reflexivity|].
    intros [|i] b a Hb Ha; simpl in *.
    + injection Hb as <-. injection Ha as <-.
      exists b1, a1. split; [reflexivity|]. split; [reflexivity|].
      split; [|exact Dead].
      intros D. destruct (Alive D) as (fly & P & Up & Keep).
      exists g, fly, g1. split; [exact P|]. split; [|exact Keep].
      intros F. rewrite (Up F). unfold ascend, Bird.set_msec_to_climb.
      cbn [Bird.msec_to_climb Bird.x Bird.y]. repeat split.
    + apply Rest; assumption.
Qed.

Lemma ml_call_ascends_iff_one_witness :
  exists birds' ais' g',
    ml_call [new_bird 50; new_bird 50]
            [Ai.set_done Lineage.side_death 0; Ai.init]
            (Lineage.constant_tape 1)
    = Ok (birds', ais', g') /\
    forall i b a,
      nth_error [new_bird 50; new_bird 50] i = Some b ->
      nth_error [Ai.set_done Lineage.side_death 0; Ai.init] i = Some a ->
      exists b' a',
        nth_error birds' i = Some b' /\ nth_error ais' i = Some a' /\
        (Ai.done a = 0 ->
         exists gi fly gi',
           Ai.play a gi = Ok (fly, a', gi') /\
           (fly = 1 ->
            Bird.msec_to_climb b' = Bird.CLIMB_DURATION /\
            Bird.x b' = Bird.x b /\ Bird.y b' = Bird.y b) /\
           (fly <> 1 -> b' = b)) /\
        (Ai.done a <> 0 -> b' = b /\ a' = a).
Proof.
  apply (ml_call_ascends_iff_one
           [new_bird 50; new_bird 50]
           [Ai.set_done Lineage.side_death 0; Ai.init]
           (Lineage.constant_tape 1)).
  - repeat constructor; unfold PyList.len; simpl; lia.
  - reflexivity.
Defined.

End GameFacts.

(** ** The optimiser: what one call of [play] does *)

Module PlayFacts.

Import PyList PyListFacts Ai Lineage Runs AiFacts.

Lemma randint_range (hi : Z) (g : rng) :
  0 <= hi -> 0 <= fst (randint 0 hi g) <= hi.
Proof.
  intros H. unfold randint. simpl.
  pose proof (Z.mod_pos_bound (draws g (used g)) (hi - 0 + 1)). lia.
Qed.

Lemma randint_used (a b : Z) (g : rng) :
  used (snd (randint a b g)) = S (used g).
Proof. reflexivity. Qed.

Lemma nth_error_update_same (l : list Z) (n : nat) (v : Z) :
  (n < length l)%nat -> nth_error (update l n v) n = Some v.
Proof.
  revert n; induction l as [|h t IH]; intros [|n] H; simpl in *;
    try lia; auto.
  apply IH. lia.
Qed.

Lemma nth_error_update_other (l : list Z) (n m : nat) (v : Z) :
  n <> m -> nth_error (update l n v) m = nth_error l m.
Proof.
  revert n m; induction l as [|h t IH]; intros [|n] [|m] H; simpl;
    auto; congruence.
Qed.

Lemma store_draws_length his c n g :
  length (fst (store_draws his c n g)) = length c.
Proof.
  revert c g. induction his as [|hi his IH]; intros c g; simpl.
  - reflexivity.
  - rewrite IH. apply length_update.
Qed.

Lemma store_draws_other his c n g m :
  n <> m ->
  nth_error (fst (store_draws his c n g)) m = nth_error c m.
Proof.
  revert c g. induction his as [|hi his IH]; intros c g H; simpl.
  - reflexivity.
  - rewrite IH by assumption. apply nth_error_update_other. assumption.
Qed.

Lemma store_draws_used his c n g :
  used (snd (store_draws his c n g)) = (used g + length his)%nat.
Proof.
  revert c g. induction his as [|hi his IH]; intros c g; simpl.
  - lia.
  - rewrite IH. simpl. lia.
Qed.

Lemma store_draws_nil c n g : store_draws [] c n g = (c, g).
Proof. reflexivity. Qed.

(** With at least one draw, the cursor position ends up holding a value
    between 0 and the largest bound. *)
Lemma store_draws_cursor his c n g top :
  his <> [] -> (n < length c)%nat ->
  Forall (fun hi => 0 <= hi <= top) his ->
  exists v,
    nth_error (fst (store_draws his c n g)) n = Some v /\ 0 <= v <= top.
Proof.
  revert c g. induction his as [|hi his IH]; intros c g NE L F.
  - congruence.
  - inversion F as [|? ? Hhi Fr]; subst. simpl.
    destruct his as [|hi2 his].
    + simpl. rewrite nth_error_update_same by assumption.
      eexists. split; [reflexivity|].
      pose proof (Z.mod_pos_bound (draws g (used g)) (hi - 0 + 1)). lia.
    + apply IH; [discriminate | rewrite length_update; assumption | exact Fr].
Qed.

Lemma gates_bounded s : Forall (fun hi => 0 <= hi <= 30) (gates s).
Proof.
  unfold gates.
  destruct (count s >? mark_of (best s)); [|constructor].
  apply Forall_app. split.
  - destruct (death_of (best s) =? 2); repeat constructor; lia.
  - destruct (death_of (best s) =? 1).
    + destruct (past_half _ _ _); repeat constructor; lia.
    + destruct (count s >? compframe s - 20); repeat constructor; lia.
Qed.

(** [play] at the frontier, in closed form. *)
Lemma play_frontier_eq (s : ai) (g : rng) :
  wf s -> frontier s = true ->
  play s g =
  let (r, g') := randint 0 25 g in
  Ok (nth (Z.to_nat (count s)) (curr s ++ [r]) 0,
      set_count (set_curr s (curr s ++ [r])) (count s + 1), g').
Proof.
  intros (Hc & Hb & Hn) F. unfold play. unfold frontier in F. rewrite F.
  destruct (randint 0 25 g) as [r g']. simpl.
  rewrite (getitem_ok _ _ 0) by (rewrite len_app; lia).
  replace (count s + 1 - 1) with (count s) by lia. reflexivity.
Qed.

(** [play] away from the frontier, in closed form. *)
Lemma play_inner_eq (s : ai) (g : rng) :
  wf s -> frontier s = false ->
  play s g =
  let (c, g') := store_draws (gates s) (curr s) (Z.to_nat (count s)) g in
  Ok (nth (Z.to_nat (count s)) c 0,
      set_count (set_curr s c) (count s + 1), g').
Proof.
  intros (Hc & Hb & Hn) F. unfold play. pose proof F as F'.
  unfold frontier in F. rewrite F.
  apply orb_false_iff in F as [_ Hin].
  rewrite Z.gtb_ltb in Hin. apply Z.ltb_ge in Hin.
  assert (Hcur : 0 <= count s < len (curr s)) by lia.
  assert (Hfin : forall (c : list Z) (g' : rng),
             length c = length (curr s) ->
             (v <- getitem c (count s + 1 - 1) ;;
              Ok (v, set_count (set_curr s c) (count s + 1), g'))
             = Ok (nth (Z.to_nat (count s)) c 0,
                   set_count (set_curr s c) (count s + 1), g')).
  { intros c g' L. replace (count s + 1 - 1) with (count s) by lia.
    rewrite (getitem_ok c (count s) 0) by (unfold len in *; lia).
    reflexivity. }
  rewrite (getitem_2 (best s)) by lia. unfold gates. simpl bind.
  destruct (count s >? mark_of (best s)).
  - rewrite (getitem_1 (best s)) by lia. simpl bind.
    destruct (death_of (best s) =? 2) eqn:D2.
    + assert (D1 : (death_of (best s) =? 1) = false).
      { apply Z.eqb_eq in D2. apply Z.eqb_neq. lia. }
      rewrite D1. unfold reroll. simpl.
      rewrite setitem_ok by assumption. simpl.
      rewrite (getitem_1 (best s)) by lia. simpl. rewrite D1.
      destruct (count s >? compframe s - 20); simpl.
      * rewrite setitem_ok by (rewrite len_update; assumption). simpl.
        apply Hfin. rewrite !length_update. reflexivity.
      * apply Hfin. rewrite length_update. reflexivity.
    + simpl. rewrite (getitem_1 (best s)) by lia. simpl.
      destruct (death_of (best s) =? 1).
      * rewrite (getitem_2 (best s)) by lia. simpl.
        destruct (past_half _ _ _); simpl.
        -- unfold reroll. simpl. rewrite setitem_ok by assumption. simpl.
           apply Hfin. rewrite length_update. reflexivity.
        -- apply Hfin. reflexivity.
      * destruct (count s >? compframe s - 20); simpl.
        -- unfold reroll. simpl. rewrite setitem_ok by assumption. simpl.
           apply Hfin. rewrite length_update. reflexivity.
        -- apply Hfin. reflexivity.
  - simpl. apply Hfin. reflexivity.
Qed.

Lemma gates_length s : (length (gates s) <= 2)%nat.
Proof.
  unfold gates.
  destruct (count s >? mark_of (best s)); [|simpl; lia].
  rewrite length_app.
  destruct (death_of (best s) =? 2); destruct (death_of (best s) =? 1);
    try destruct (past_half _ _ _);
    try destruct (count s >? compframe s - 20); simpl; lia.
Qed.

(** X1. One call of [play] on a well-formed lineage succeeds, moves the
    cursor forward by exactly one, leaves [best], [compframe] and the
    bookkeeping fields alone, changes [curr] at most at the cursor position
    or by appending one element, returns what is then stored at the old
    cursor position, and consumes at most two random draws.  When [best]
    died on a pipe side, [compframe - best[2]] must be within 2^53 in
    magnitude: there Python's true division by 2 is exact, beyond the float
    range it raises [OverflowError]. *)
Theorem play_frame (s : ai) (g : rng) :
  wf s ->
  (death_of (best s) = 1 ->
   Z.abs (compframe s - mark_of (best s)) <= 2 ^ 53) ->
  exists v s' g',
    play s g = Ok (v, s', g') /\
    count s' = count s + 1 /\
    best s' = best s /\ compframe s' = compframe s /\
    deathtype s' = deathtype s /\ done s' = done s /\
    score s' = score s /\ deathprocessed s' = deathprocessed s /\
    (length (curr s) <= length (curr s') <= S (length (curr s)))%nat /\
    (forall j, (j < length (curr s))%nat -> j <> Z.to_nat (count s) ->
               nth_error (curr s') j = nth_error (curr s) j) /\
    nth_error (curr s') (Z.to_nat (count s)) = Some v /\
    (used g <= used g' <= used g + 2)%nat.
Proof.
  intros W _. pose proof W as (Hc & Hb & Hn).
  destruct (frontier s) eqn:F.
  - rewrite (play_frontier_eq s g W F).
    destruct (randint 0 25 g) as [r g'] eqn:R.
    eexists _, _, _. split; [reflexivity|]. simpl.
    repeat (split; [reflexivity|]).
    split; [rewrite length_app; simpl; lia|].
    split; [intros j L _; apply nth_error_app1; exact L|].
    split.
    + apply nth_error_nth'. rewrite length_app. simpl.
      unfold len in Hn. lia.
    + pose proof (randint_used 0 25 g) as U. rewrite R in U. simpl in U.
      lia.
  - rewrite (play_inner_eq s g W F).
    pose proof (store_draws_length (gates s) (curr s)
                  (Z.to_nat (count s)) g) as L.
    pose proof (store_draws_used (gates s) (curr s)
                  (Z.to_nat (count s)) g) as U.
    pose proof (fun m => store_draws_other (gates s) (curr s)
                  (Z.to_nat (count s)) g m) as O.
    pose proof (gates_length s) as GL.
    destruct (store_draws (gates s) (curr s) (Z.to_nat (count s)) g)
      as [c g'].
    simpl in L, U, O.
    eexists _, _, _. split; [reflexivity|]. simpl.
    repeat (split; [reflexivity|]).
    split; [lia|].
    split; [intros j _ N; apply O; congruence|].
    split.
    + apply nth_error_nth'. unfold frontier in F.
      apply orb_false_iff in F as [_ F].
      rewrite Z.gtb_ltb in F. apply Z.ltb_ge in F. unfold len in *. lia.
    + lia.
Qed.

Lemma play_frame_witness :
  exists v s' g',
    play side_death (constant_tape 7) = Ok (v, s', g') /\
    count s' = count side_death + 1 /\
    best s' = best side_death /\ compframe s' = compframe side_death /\
    deathtype s' = deathtype side_death /\ done s' = done side_death /\
    score s' = score side_death /\
    deathprocessed s' = deathprocessed side_death /\
    (length (curr side_death) <= length (curr s')
     <= S (length (curr side_death)))%nat /\
    (forall j, (j < length (curr side_death))%nat ->
               j <> Z.to_nat (count side_death) ->
               nth_error (curr s') j = nth_error (curr side_death) j) /\
    nth_error (curr s') (Z.to_nat (count side_death)) = Some v /\
    (used (constant_tape 7) <= used g' <= used (constant_tape 7) + 2)%nat.
Proof.
  apply (play_frame side_death (constant_tape 7)).
  - unfold wf, len. simpl. lia.
  - intros _. vm_compute. discriminate.
Defined.

(** X2. Away from the frontier, with the cursor at or before the last
    score change of [best], [play] replays the recorded action: it returns
    the entry at the cursor, only advances the cursor, and draws nothing. *)
Theorem play_replays_proven_prefix (s : ai) (g : rng) :
  wf s -> frontier s = false -> count s <= mark_of (best s) ->
  play s g =
  Ok (nth (Z.to_nat (count s)) (curr s) 0, set_count s (count s + 1), g).
Proof.
  intros W F M. rewrite (play_inner_eq s g W F).
  unfold gates.
  replace (count s >? mark_of (best s)) with false
    by (symmetry; rewrite Z.gtb_ltb; apply Z.ltb_ge; lia).
  simpl. destruct s; reflexivity.
Qed.

Lemma play_replays_proven_prefix_witness :
  play (set_count side_death 150) (constant_tape 7) =
  Ok (nth (Z.to_nat (count (set_count side_death 150)))
          (curr (set_count side_death 150)) 0,
      set_count (set_count side_death 150)
                (count (set_count side_death 150) + 1),
      constant_tape 7).
Proof.
  apply (play_replays_proven_prefix (set_count side_death 150)
                                    (constant_tape 7)).
  - unfold wf, len. simpl. lia.
  - reflexivity.
  - simpl. discriminate.
Defined.

(** X3. At the frontier ([best] is still the sentinel, or the cursor is at
    the end of [curr]) [play] appends exactly one draw from 0..25 to [curr]
    and consumes one draw.  It returns that draw only when the cursor was at
    the end of [curr]; otherwise it returns the entry already stored at the
    cursor. *)
Theorem play_explores_at_frontier (s : ai) (g : rng) :
  wf s -> frontier s = true ->
  exists r g',
    0 <= r <= 25 /\ used g' = S (used g) /\
    play s g =
    Ok (if count s =? len (curr s) then r
        else nth (Z.to_nat (count s)) (curr s) 0,
        set_count (set_curr s (curr s ++ [r])) (count s + 1), g').
Proof.
  intros W F. pose proof W as (Hc & Hb & Hn).
  rewrite (play_frontier_eq s g W F).
  pose proof (randint_range 25 g ltac:(lia)) as R.
  pose proof (randint_used 0 25 g) as U.
  destruct (randint 0 25 g) as [r g']. simpl in R, U.
  exists r, g'. split; [exact R|]. split; [exact U|].
  destruct (count s =? len (curr s)) eqn:E.
  - apply Z.eqb_eq in E. unfold len in E.
    rewrite app_nth2 by lia.
    replace (Z.to_nat (count s) - length (curr s))%nat with 0%nat by lia.
    reflexivity.
  - apply Z.eqb_neq in E. unfold len in *.
    rewrite app_nth1 by lia. reflexivity.
Qed.

Lemma play_explores_at_frontier_witness :
  exists r g',
    0 <= r <= 25 /\ used g' = S (used (constant_tape 7)) /\
    play init (constant_tape 7) =
    Ok (if count init =? len (curr init) then r
        else nth (Z.to_nat (count init)) (curr init) 0,
        set_count (set_curr init (curr init ++ [r])) (count init + 1), g').
Proof.
  apply (play_explores_at_frontier init (constant_tape 7)).
  - unfold wf, len. simpl. lia.
  - reflexivity.
Defined.

(** X4. Away from the frontier and past the last score change of a [best]
    whose death type is neither 1 nor 2 (a head-on death, type 0): up to 20
    ticks before the comparison tick [play] replays the recorded action
    without drawing; later than that it overwrites the cursor position with
    one draw from 0..30 and returns it. *)
Theorem play_head_on_window (s : ai) (g : rng) :
  wf s -> frontier s = false -> mark_of (best s) < count s ->
  death_of (best s) <> 1 -> death_of (best s) <> 2 ->
  (count s <= compframe s - 20 ->
   play s g =
   Ok (nth (Z.to_nat (count s)) (curr s) 0, set_count s (count s + 1), g))
  /\
  (compframe s - 20 < count s ->
   exists r g',
     0 <= r <= 30 /\ used g' = S (used g) /\
     play s g =
     Ok (r, set_count (set_curr s (update (curr s) (Z.to_nat (count s)) r))
                      (count s + 1), g')).
Proof.
  intros W F M D1 D2. pose proof W as (Hc & Hb & Hn).
  rewrite (play_inner_eq s g W F). unfold gates.
  replace (count s >? mark_of (best s)) with true
    by (symmetry; rewrite Z.gtb_ltb; apply Z.ltb_lt; lia).
  replace (death_of (best s) =? 2) with false
    by (symmetry; apply Z.eqb_neq; assumption).
  replace (death_of (best s) =? 1) with false
    by (symmetry; apply Z.eqb_neq; assumption).
  split; intros Hw.
  - replace (count s >? compframe s - 20) with false
      by (symmetry; rewrite Z.gtb_ltb; apply Z.ltb_ge; lia).
    simpl. destruct s; reflexivity.
  - replace (count s >? compframe s - 20) with true
      by (symmetry; rewrite Z.gtb_ltb; apply Z.ltb_lt; lia).
    pose proof (randint_range 30 g ltac:(lia)) as R.
    pose proof (randint_used 0 30 g) as U.
    cbn [app store_draws].
    destruct (randint 0 30 g) as [r g']. cbn [fst snd] in R, U.
    exists r, g'. split; [exact R|]. split; [exact U|].
    cbn [store_draws].
    assert (L : (Z.to_nat (count s) < length (curr s))%nat).
    { unfold frontier in F. apply orb_false_iff in F as [_ F].
      rewrite Z.gtb_ltb in F. apply Z.ltb_ge in F. unfold len in *. lia. }
    rewrite (nth_error_nth _ _ 0
               (nth_error_update_same (curr s) _ r L)).
    reflexivity.
Qed.

Lemma play_head_on_window_witness :
  exists r g',
    0 <= r <= 30 /\ used g' = S (used (constant_tape 7)) /\
    play (mkAi ([1; 0; 202] ++ repeat 0 348) ([1; 0; 202] ++ repeat 0 348)
               340 350 0 0 0 1) (constant_tape 7) =
    Ok (r, set_count
             (set_curr
                (mkAi ([1; 0; 202] ++ repeat 0 348)
                      ([1; 0; 202] ++ repeat 0 348) 340 350 0 0 0 1)
                (update ([1; 0; 202] ++ repeat 0 348) (Z.to_nat 340) r))
             (340 + 1), g').
Proof.
  apply (proj2 (play_head_on_window
                  (mkAi ([1; 0; 202] ++ repeat 0 348)
                        ([1; 0; 202] ++ repeat 0 348) 340 350 0 0 0 1)
                  (constant_tape 7)
                  ltac:(unfold wf, len; simpl; lia)
                  ltac:(reflexivity)
                  ltac:(vm_compute; reflexivity)
                  ltac:(vm_compute; discriminate)
                  ltac:(vm_compute; discriminate))).
  vm_compute. reflexivity.
Defined.

(** *** Whole runs *)

Lemma skipn_cons_nth (l : list Z) (k : nat) :
  (k < length l)%nat -> skipn k l = nth k l 0 :: skipn (S k) l.
Proof.
  revert k. induction l as [|h t IH]; intros [|k] H; simpl in *; try lia.
  - reflexivity.
  - apply IH. lia.
Qed.

(** X7. Replaying a proven prefix: on a lineage whose [best] is not the
    sentinel, [n] successive calls of [play] that keep the cursor inside
    [curr] and at or before the last score change of [best] return the next
    [n] recorded entries in order, draw nothing, and change nothing but the
    cursor. *)
Theorem plays_replay_prefix (n : nat) (s : ai) (g : rng) :
  wf s -> eqb (best s) [0; 2; 0] = false ->
  count s + Z.of_nat n <= len (curr s) ->
  count s + Z.of_nat n <= mark_of (best s) + 1 ->
  plays n s g =
  Ok (firstn n (skipn (Z.to_nat (count s)) (curr s)),
      set_count s (count s + Z.of_nat n), g).
Proof.
  revert s. induction n as [|n IH]; intros s W B L M.
  - simpl. replace (count s + 0) with (count s) by lia.
    destruct s; reflexivity.
  - pose proof W as (Hc & Hb & Hn).
    rewrite Nat2Z.inj_succ in L, M.
    assert (F : frontier s = false).
    { unfold frontier. rewrite B. simpl.
      rewrite Z.gtb_ltb. apply Z.ltb_ge. lia. }
    cbn [plays].
    rewrite (play_replays_proven_prefix s g W F) by lia.
    cbn [bind].
    rewrite (IH (set_count s (count s + 1))).
    + cbn [bind curr count set_count].
      rewrite (skipn_cons_nth (curr s) (Z.to_nat (count s)))
        by (unfold len in *; lia).
      replace (Z.to_nat (count s + 1)) with (S (Z.to_nat (count s)))
        by lia.
      rewrite Nat2Z.inj_succ.
      replace (count s + 1 + Z.of_nat n) with (count s + Z.succ (Z.of_nat n))
        by lia.
      destruct s; reflexivity.
    + unfold wf in *. cbn [curr best count set_count]. lia.
    + exact B.
    + cbn [curr count set_count]. lia.
    + cbn [best count set_count]. lia.
Qed.

Lemma plays_replay_prefix_witness :
  plays 5 (set_count side_death 2) (constant_tape 7) =
  Ok (firstn 5 (skipn (Z.to_nat (count (set_count side_death 2)))
                      (curr (set_count side_death 2))),
      set_count (set_count side_death 2)
                (count (set_count side_death 2) + Z.of_nat 5),
      constant_tape 7).
Proof.
  apply (plays_replay_prefix 5 (set_count side_death 2) (constant_tape 7)).
  - unfold wf, len. simpl. lia.
  - reflexivity.
  - unfold len. simpl. lia.
  - simpl. lia.
Defined.

(** *** Running [resetvar] again *)

Lemma beats_irrefl (l : list Z) : beats l l = false.
Proof.
  unfold beats. rewrite Z.gtb_ltb, !Z.ltb_irrefl, andb_false_r.
  reflexivity.
Qed.

(** X6. [resetvar] is idempotent: calling it again with the same final
    score, with nothing in between, returns the lineage unchanged; in
    particular [best] and [compframe] are not touched the second time. *)
Theorem resetvar_idempotent (s : ai) (sc : Z) :
  (2 <= length (curr s))%nat -> (2 <= length (best s))%nat ->
  exists s1, resetvar s sc = Ok s1 /\ resetvar s1 sc = Ok s1.
Proof.
  intros Hc Hb. rewrite (resetvar_eq s sc Hc Hb). cbv zeta.
  eexists. split; [reflexivity|].
  destruct (beats (stamped s sc) (best s)) eqn:B.
  - rewrite resetvar_eq by (simpl; lia). cbv zeta.
    change (stamped
              (set_count
                 (set_curr (promote (set_curr s (stamped s sc)))
                    (best (promote (set_curr s (stamped s sc))))) 2) sc)
      with (stamped s sc).
    change (best
              (set_count
                 (set_curr (promote (set_curr s (stamped s sc)))
                    (best (promote (set_curr s (stamped s sc))))) 2))
      with (stamped s sc).
    rewrite beats_irrefl. reflexivity.
  - rewrite resetvar_eq by (simpl; lia). cbv zeta.
    change (beats
              (stamped
                 (set_count
                    (set_curr (set_curr s (stamped s sc))
                       (best (set_curr s (stamped s sc)))) 2) sc)
              (best
                 (set_count
                    (set_curr (set_curr s (stamped s sc))
                       (best (set_curr s (stamped s sc)))) 2)))
      with (beats (stamped s sc) (best s)).
    rewrite B. reflexivity.
Qed.

Lemma resetvar_idempotent_witness :
  exists s1,
    resetvar (mkAi [0; 2; 7; 4; 1; 9] [0; 2; 0] 6 0 1 1 1 3) 3 = Ok s1 /\
    resetvar s1 3 = Ok s1.
Proof.
  apply (resetvar_idempotent (mkAi [0; 2; 7; 4; 1; 9] [0; 2; 0] 6 0 1 1 1 3)
                             3); simpl; lia.
Defined.

(** *** The recorded actions stay in range *)

Section Range.

Variable P : Z -> Prop.

Lemma Forall_update (c : list Z) (n : nat) (v : Z) :
  Forall P c -> P v -> Forall P (update c n v).
Proof.
  revert n. induction c as [|h t IH]; intros [|n] F Pv; simpl;
    try constructor; inversion F; subst; auto.
Qed.

Lemma Forall_skipn_update (k : nat) (c : list Z) (n : nat) (v : Z) :
  Forall P (skipn k c) -> P v -> Forall P (skipn k (update c n v)).
Proof.
  revert c n. induction k as [|k IH]; intros c n F Pv.
  - simpl in *. apply Forall_update; assumption.
  - destruct c as [|h t]; [destruct n; exact F|].
    destruct n as [|n]; simpl in *; [exact F | apply IH; assumption].
Qed.

Lemma skipn_update_below (k : nat) (c : list Z) (n : nat) (v : Z) :
  (n < k)%nat -> skipn k (update c n v) = skipn k c.
Proof.
  revert c n. induction k as [|k IH]; intros c n L; [lia|].
  destruct c as [|h t]; [destruct n; reflexivity|].
  destruct n as [|n]; simpl; [reflexivity | apply IH; lia].
Qed.

Lemma Forall_skipn_snoc (k : nat) (c : list Z) (v : Z) :
  Forall P (skipn k c) -> P v -> Forall P (skipn k (c ++ [v])).
Proof.
  revert c. induction k as [|k IH]; intros c F Pv.
  - simpl in *. apply Forall_app. split; [exact F | repeat constructor].
    exact Pv.
  - destruct c as [|h t]; simpl in *.
    + destruct k; constructor.
    + apply IH; assumption.
Qed.

Lemma Forall_skipn_store_draws (k : nat) his c n g :
  Forall P (skipn k c) ->
  (forall hi g', In hi his -> P (fst (randint 0 hi g'))) ->
  Forall P (skipn k (fst (store_draws his c n g))).
Proof.
  revert c g. induction his as [|hi his IH]; intros c g F D; simpl.
  - exact F.
  - apply IH.
    + apply Forall_skipn_update; [exact F|].
      apply (D hi g). left. reflexivity.
    + intros hi' g' I. apply D. right. exact I.
Qed.

End Range.

Lemma stamped_actions (s : ai) (sc : Z) :
  skipn 3 (stamped s sc) = skipn 3 (curr s).
Proof.
  unfold stamped. change (skipn 3 (sc :: deathtype s :: skipn 2 (curr s)))
    with (skipn 1 (skipn 2 (curr s))).
  rewrite skipn_skipn. reflexivity.
Qed.

Lemma play_keeps_range (s : ai) (g : rng) :
  wf s -> actions_in_range (curr s) ->
  exists v s' g',
    play s g = Ok (v, s', g') /\ wf s' /\ best s' = best s /\
    actions_in_range (curr s').
Proof.
  intros W A.
  destruct (play_ok s g W) as (v & s' & g' & E & W' & B).
  exists v, s', g'. split; [exact E|]. split; [exact W'|].
  split; [exact B|].
  destruct (frontier s) eqn:F.
  - rewrite (play_frontier_eq s g W F) in E.
    pose proof (randint_range 25 g ltac:(lia)) as R.
    destruct (randint 0 25 g) as [r g1]. simpl in R.
    injection E as _ <- _. cbn [curr set_count set_curr].
    apply Forall_skipn_snoc; [exact A | lia].
  - rewrite (play_inner_eq s g W F) in E.
    pose proof (Forall_skipn_store_draws (fun v => 0 <= v <= 30) 3
                  (gates s) (curr s) (Z.to_nat (count s)) g A) as K.
    destruct (store_draws (gates s) (curr s) (Z.to_nat (count s)) g)
      as [c g1].
    injection E as _ <- _. cbn [curr set_count set_curr].
    apply K. intros hi g2 I.
    pose proof (gates_bounded s) as G.
    rewrite Forall_forall in G. specialize (G hi I).
    pose proof (randint_range hi g2 ltac:(lia)). lia.
Qed.

Lemma run_op_keeps_range (o : op) (s : ai) (g : rng) :
  wf s -> actions_in_range (curr s) -> actions_in_range (best s) ->
  exists s' g',
    run_op o s g = Ok (s', g') /\ wf s' /\
    actions_in_range (curr s') /\ actions_in_range (best s').
Proof.
  intros W A B. destruct o as [| |d|d|d|v|sc]; simpl;
    try (eexists _, _; split; [reflexivity|]; split; [exact W|];
         split; assumption).
  - destruct (play_keeps_range s g W A) as (v & s' & g' & E & W' & Eb & A').
    rewrite E. simpl. exists s', g'. rewrite Eb. auto.
  - destruct (scorecount_ok s W) as (s' & E & W' & Eb).
    rewrite E. simpl. exists s', g. rewrite Eb.
    split; [reflexivity|]. split; [exact W'|]. split; [|exact B].
    unfold scorecount in E. destruct W as (Hc & _ & _).
    rewrite setitem_ok in E by (unfold len; lia).
    simpl in E. injection E as <-. cbn [curr set_curr].
    unfold actions_in_range. rewrite skipn_update_below by (simpl; lia).
    exact A.
  - destruct (resetvar_ok s sc W) as (s' & E & W' & _).
    rewrite E. simpl. exists s', g.
    split; [reflexivity|]. split; [exact W'|].
    destruct W as (Hc & Hb & _).
    rewrite resetvar_eq in E by lia. cbv zeta in E. injection E as <-.
    unfold actions_in_range in *.
    destruct (beats (stamped s sc) (best s));
      cbn [curr best set_count set_curr promote set_best set_compframe];
      rewrite ?stamped_actions; auto.
Qed.

(** X5. From [ai.__init__] on, whatever [main] does to a lineage, every
    action it has recorded (the entries of [curr] and [best] after the
    three summary slots) lies in 0..30: the property holds initially and is
    kept by [play], [scorecount], [resetvar] and the field writes. *)
Theorem actions_stay_in_range (os : list op) (s : ai) (g : rng) :
  wf s -> actions_in_range (curr s) -> actions_in_range (best s) ->
  exists s' g',
    run_ops os s g = Ok (s', g') /\ wf s' /\
    actions_in_range (curr s') /\ actions_in_range (best s').
Proof.
  revert s g. induction os as [|o os IH]; intros s g W A B; simpl.
  - exists s, g. auto.
  - destruct (run_op_keeps_range o s g W A B)
      as (s1 & g1 & E & W1 & A1 & B1).
    rewrite E. simpl. apply IH; assumption.
Qed.

Lemma actions_stay_in_range_witness :
  exists s' g',
    run_ops [OpDone 0; OpPlay; OpPlay; OpScore 1; OpScorecount; OpPlay;
             OpDone 1; OpResetvar 1; OpScore 0; OpPlay]
            init (constant_tape 29) = Ok (s', g') /\ wf s' /\
    actions_in_range (curr s') /\ actions_in_range (best s').
Proof.
  apply (actions_stay_in_range _ init (constant_tape 29)).
  - unfold wf, len. simpl. lia.
  - constructor.
  - constructor.
Defined.

End PlayFacts.

(** ** Obstacles: geometry and lifetime *)

Module PipeGeometry.

Import PipePair Runs.

(** X8. Whatever [pipenum] is, the opening between the two pipes of a pair
    is four pieces (128 px) high: the top pipe ends at [top_height_px], the
    bottom pipe starts at [WIN_HEIGHT - bottom_height_px], and the two end
    pieces are drawn exactly against that opening. *)
Theorem opening_is_four_pieces (pipenum : Z) :
  exists pp,
    init pipenum = Ok pp /\
    WIN_HEIGHT - bottom_height_px pp - top_height_px pp = 4 * PIECE_HEIGHT /\
    In (pipe_end_img, top_height_px pp - PIECE_HEIGHT) (image pp) /\
    In (pipe_end_img, WIN_HEIGHT - bottom_height_px pp) (image pp).
Proof.
  unfold init. eexists. split; [reflexivity|].
  unfold top_height_px, bottom_height_px. cbn [top_pieces bottom_pieces image].
  rewrite PipeFacts.total_pipe_body_pieces_10.
  unfold WIN_HEIGHT, PIECE_HEIGHT. split; [lia|]. split.
  - apply in_or_app. right. apply in_or_app. right.
    apply in_or_app. right. left. f_equal. lia.
  - apply in_or_app. right. left. f_equal. lia.
Qed.

Lemma range_length (a b : Z) : length (range a b) = Z.to_nat (b - a).
Proof. unfold range. rewrite length_map, length_seq. reflexivity. Qed.

Lemma range_bounds (a b i : Z) : In i (range a b) -> a <= i < b.
Proof.
  unfold range. rewrite in_map_iff. intros (k & <- & I).
  apply in_seq in I. lia.
Qed.

(** X9. For every [pipenum] from 0 to [total_pipe_body_pieces], the image
    of the pair is made of [total_pipe_body_pieces + 2] pieces, two of them
    end pieces, and every piece is drawn at a multiple of [PIECE_HEIGHT]
    that lies inside the window. *)
Theorem pieces_inside_window (pipenum : Z) :
  0 <= pipenum <= total_pipe_body_pieces ->
  exists pp,
    init pipenum = Ok pp /\
    length (image pp) = Z.to_nat (total_pipe_body_pieces + 2) /\
    length (filter (fun b => match fst b with
                             | pipe_end_img => true
                             | pipe_body_img => false
                             end) (image pp)) = 2%nat /\
    Forall (fun b => 0 <= snd b <= WIN_HEIGHT - PIECE_HEIGHT /\
                     snd b mod PIECE_HEIGHT = 0) (image pp).
Proof.
  rewrite PipeFacts.total_pipe_body_pieces_10. intros H.
  unfold init. eexists. split; [reflexivity|].
  cbn [image]. rewrite PipeFacts.total_pipe_body_pieces_10.
  split; [|split].
  - rewrite !length_app, !length_map, !range_length. simpl length. lia.
  - rewrite !filter_app. rewrite !length_app.
    assert (Body : forall (f : Z -> Z) l,
               length (filter (fun b : blit =>
                                 match fst b with
                                 | pipe_end_img => true
                                 | pipe_body_img => false
                                 end)
                              (map (fun i => (pipe_body_img, f i)) l)) = 0%nat).
    { intros f l. induction l as [|i l IH]; simpl; auto. }
    rewrite !Body. reflexivity.
  - unfold WIN_HEIGHT, PIECE_HEIGHT.
    repeat (apply Forall_app; split).
    + apply Forall_forall. intros b I. apply in_map_iff in I.
      destruct I as (i & <- & I). apply range_bounds in I. cbn [snd].
      split; [lia|].
      replace (512 - i * 32) with ((16 - i) * 32) by lia.
      apply Z.mod_mul. lia.
    + repeat constructor; cbn [snd]; try lia.
      replace (512 - pipenum * 32 - 32) with ((15 - pipenum) * 32) by lia.
      apply Z.mod_mul. lia.
    + apply Forall_forall. intros b I. apply in_map_iff in I.
      destruct I as (i & <- & I). apply range_bounds in I. cbn [snd].
      split; [lia|]. apply Z.mod_mul. lia.
    + repeat constructor; cbn [snd]; try lia.
      apply Z.mod_mul. lia.
Qed.

Lemma pieces_inside_window_witness :
  exists pp,
    init 3 = Ok pp /\
    length (image pp) = Z.to_nat (total_pipe_body_pieces + 2) /\
    length (filter (fun b => match fst b with
                             | pipe_end_img => true
                             | pipe_body_img => false
                             end) (image pp)) = 2%nat /\
    Forall (fun b => 0 <= snd b <= WIN_HEIGHT - PIECE_HEIGHT /\
                     snd b mod PIECE_HEIGHT = 0) (image pp).
Proof. apply (pieces_inside_window 3). vm_compute. split; discriminate. Defined.

End PipeGeometry.

Module PipeLifetime.

Import PipePair Runs.
Open Scope R_scope.

Lemma Rltb_true_iff (a b : R) : Rltb a b = true <-> a < b.
Proof.
  unfold Rltb. destruct (Rlt_dec a b); split; intros; auto; discriminate.
Qed.

Lemma update_1_x (p : t) : x (update p 1) = x p - 3.
Proof.
  unfold update. cbn [x]. unfold ANIMATION_SPEED, frames_to_msec, FPS. lra.
Qed.

Lemma scrolled_x (n : nat) (p : t) : x (scrolled n p) = x p - 3 * INR n.
Proof.
  induction n as [|n IH].
  - simpl. lra.
  - unfold scrolled in *. rewrite Nat.iter_succ, update_1_x, IH, S_INR. lra.
Qed.

(** X10. A pipe pair enters at x = WIN_WIDTH - 1 and moves left 3 px per
    frame; it is [visible] after [n] single-frame updates exactly when
    [n <= 215], so the 216th update takes it past the left edge. *)
Theorem visible_for_215_frames (pipenum : Z) (n : nat) :
  exists pp,
    init pipenum = Ok pp /\
    x (scrolled n pp) = IZR (WIN_WIDTH - 1) - 3 * INR n /\
    (visible (scrolled n pp) = true <-> (n <= 215)%nat).
Proof.
  unfold init. eexists. split; [reflexivity|].
  rewrite scrolled_x. cbn [x]. split; [reflexivity|].
  unfold visible. rewrite andb_true_iff, !Rltb_true_iff, scrolled_x.
  cbn [x]. unfold WIN_WIDTH, WIDTH. rewrite INR_IZR_INZ.
  replace (IZR (284 * 2 - 1)) with 567 by (simpl; lra).
  replace (IZR (284 * 2)) with 568 by (simpl; lra).
  replace (IZR (- (80))) with (-80) by (simpl; lra).
  split.
  - intros [L _].
    destruct (Nat.le_gt_cases n 215) as [Le|Gt]; [exact Le|].
    assert (Hz : (216 <= Z.of_nat n)%Z) by lia.
    apply IZR_le in Hz. lra.
  - intros Le.
    assert (Hz : (Z.of_nat n <= 215)%Z) by lia.
    apply IZR_le in Hz.
    assert (H0 : (0 <= Z.of_nat n)%Z) by lia.
    apply IZR_le in H0. lra.
Qed.

End PipeLifetime.

(** ** The simulation loop, phase by phase *)

Module LoopFacts.

Import PyList Game Scenario.

(** *** Restart detection *)

Lemma compute_restart_fold (l : list Ai.ai) (r : Z) :
  let f := fun restart i => if Ai.done i <? restart then Ai.done i
                            else restart in
  fold_left f l r <= r /\
  (fold_left f l r = r <-> Forall (fun a => r <= Ai.done a) l).
Proof.
  cbv zeta. revert r. induction l as [|a l IH]; intros r; simpl.
  - split; [lia|]. split; [constructor | reflexivity].
  - destruct (Ai.done a <? r) eqn:D.
    + apply Z.ltb_lt in D. destruct (IH (Ai.done a)) as [Le _].
      split; [lia|]. split.
      * intros E. lia.
      * intros F. inversion F; subst. lia.
    + apply Z.ltb_ge in D. destruct (IH r) as [Le Iff].
      split; [exact Le|]. rewrite Iff. split.
      * intros F. constructor; assumption.
      * intros F. inversion F; assumption.
Qed.

(** X11. [restart] is never above 1, and it is 1 exactly when no lineage
    has a [done] flag below 1, that is, when every lineage is dead (an empty
    population included). *)
Theorem restart_iff_all_done (autoinput : list Ai.ai) :
  compute_restart autoinput <= 1 /\
  (compute_restart autoinput = 1 <->
   Forall (fun a => 1 <= Ai.done a) autoinput).
Proof. apply (compute_restart_fold autoinput 1). Qed.

(** *** Events *)

(** The statement of [handle_events_end], in the form later proofs use. *)
Lemma handle_events_end_holds (es : list event) (e p : bool) (pl : Z)
        (b : option Bird.t) :
  truthy pl = false \/ b <> None ->
  exists p' b',
    handle_events es e p pl b = Ok (e || escape_reached es, p', b') /\
    (b = None <-> b' = None).
Proof.
  revert e p b. induction es as [|ev es IH]; intros e p b H; simpl.
  - exists p, b. rewrite orb_false_r. split; [reflexivity | tauto].
  - destruct (is_escape ev) eqn:Esc.
    + rewrite orb_true_r. exists p, b. rewrite orb_true_r.
      split; [reflexivity | tauto].
    + rewrite orb_false_r. destruct (is_quit ev); simpl.
      * exists p, b. rewrite orb_false_r. split; [reflexivity | tauto].
      * destruct (is_pause ev); [apply IH; exact H|].
        destruct (is_flap ev); [|apply IH; exact H].
        destruct (truthy pl) eqn:T; [|apply IH; exact H].
        destruct b as [b0|].
        -- destruct (IH e p (Some (Bird.set_msec_to_climb b0
                                     Bird.CLIMB_DURATION)))
             as (p' & b' & E & I).
           { right. discriminate. }
           exists p', b'. split; [exact E|].
           split; [discriminate|]. intros N. apply I in N. discriminate.
        -- destruct H as [H|H]; [discriminate | contradiction].
Qed.

(** X12. Whenever the player bird is bound or there is no player, the event
    loop of an iteration cannot fail, and it leaves [end] set exactly when
    [end] was already set or an ESCAPE key-up is reached before a QUIT: a
    QUIT alone never ends the game, it only drops the rest of the batch.
    The player bird stays bound, or unbound, as it was. *)
Theorem handle_events_end (es : list event) (e p : bool) (pl : Z)
        (b : option Bird.t) :
  truthy pl = false \/ b <> None ->
  exists p' b',
    handle_events es e p pl b = Ok (e || escape_reached es, p', b') /\
    (b = None <-> b' = None).
Proof.
  apply handle_events_end_holds; assumption.
Qed.

Lemma handle_events_end_witness :
  exists p' b',
    handle_events [KEYUP K_p; MOUSEBUTTONUP; QUIT; KEYUP K_ESCAPE]
                  false false 1 (Some (new_bird 50))
    = Ok (false ||
          escape_reached [KEYUP K_p; MOUSEBUTTONUP; QUIT; KEYUP K_ESCAPE],
          p', b') /\
    (Some (new_bird 50) = None <-> b' = None).
Proof.
  apply (handle_events_end
           [KEYUP K_p; MOUSEBUTTONUP; QUIT; KEYUP K_ESCAPE]
           false false 1 (Some (new_bird 50))).
  right. discriminate.
Defined.

(** *** Retiring pipes *)

(** X13. [retire] removes a prefix of pipes that are all off screen and
    stops at the first visible one: what is left starts with a visible pipe
    (or is empty), and pipes behind it are kept whether visible or not. *)
Theorem retire_drops_invisible_prefix (pipes : list PipePair.t) :
  exists dropped,
    pipes = dropped ++ retire pipes /\
    Forall (fun p => PipePair.visible p = false) dropped /\
    (forall p rest, retire pipes = p :: rest -> PipePair.visible p = true).
Proof.
  induction pipes as [|p pipes IH]; simpl.
  - exists []. repeat split; [constructor | discriminate].
  - destruct (PipePair.visible p) eqn:V.
    + exists []. split; [reflexivity|]. split; [constructor|].
      intros q rest E. injection E as <- _. exact V.
    + destruct IH as (dropped & E & F & Hd).
      exists (p :: dropped). split; [simpl; f_equal; exact E|].
      split; [constructor; assumption | exact Hd].
Qed.

End LoopFacts.

Module PipeScoring.

Import PipePair Runs PipeLifetime.
Open Scope R_scope.

(** X14. A pipe pair has passed the birds' column ([x + WIDTH < BIRD_X],
    the first half of the scoring test) after [n] single-frame updates
    exactly when [n >= 200]. *)
Theorem passed_from_200_frames (pipenum : Z) (n : nat) :
  exists pp,
    init pipenum = Ok pp /\
    (Rltb (x (scrolled n pp) + IZR WIDTH) (IZR BIRD_X) = true
     <-> (200 <= n)%nat).
Proof.
  unfold init. eexists. split; [reflexivity|].
  rewrite Rltb_true_iff, scrolled_x. cbn [x].
  unfold WIN_WIDTH, WIDTH, BIRD_X. rewrite INR_IZR_INZ.
  replace (IZR (284 * 2 - 1)) with 567 by (simpl; lra).
  split.
  - intros L.
    destruct (Nat.le_gt_cases 200 n) as [Le|Gt]; [exact Le|].
    assert (Hz : (Z.of_nat n <= 199)%Z) by lia.
    apply IZR_le in Hz. lra.
  - intros Le.
    assert (Hz : (200 <= Z.of_nat n)%Z) by lia.
    apply IZR_le in Hz. lra.
Qed.

End PipeScoring.

(** ** Spawning pipes *)

Module SpawnFacts.

Import PyList Game.

Lemma add_interval_frames : msec_to_frames PipePair.ADD_INTERVAL = 180%R.
Proof.
  unfold msec_to_frames, PipePair.ADD_INTERVAL, FPS. lra.
Qed.

Lemma pymod_frames (fc : Z) :
  pymod (IZR fc) (msec_to_frames PipePair.ADD_INTERVAL)
  = IZR (fc mod 180).
Proof.
  rewrite add_interval_frames. unfold pymod.
  pose proof (Z.div_mod fc 180 ltac:(lia)) as D.
  pose proof (Z.mod_pos_bound fc 180 ltac:(lia)) as [B0 B1].
  apply IZR_le in B0. apply IZR_lt in B1.
  assert (E : IZR fc = (180 * IZR (fc / 180) + IZR (fc mod 180))%R).
  { rewrite D at 1. rewrite plus_IZR, mult_IZR. reflexivity. }
  assert (I : Int_part (IZR fc / 180) = fc / 180).
  { symmetry. apply Int_part_spec. rewrite E. split; lra. }
  rewrite I. lra.
Qed.

Lemma Rtruthy_IZR (z : Z) : Rtruthy (IZR z) = negb (z =? 0).
Proof.
  unfold Rtruthy. destruct (Req_dec_T (IZR z) 0) as [E|N].
  - apply eq_IZR_R0 in E. subst. reflexivity.
  - destruct (z =? 0) eqn:Z0; [|reflexivity].
    apply Z.eqb_eq in Z0. subst. contradiction.
Qed.

(** The statement of [spawn_spec], in the form later proofs use. *)
Lemma spawn_spec_holds (paused : bool) (frame_clock pscount : Z)
        (pipes : list PipePair.t) :
  (paused = true \/ frame_clock mod 180 <> 0 ->
   spawn paused frame_clock pscount pipes = Ok (pscount, pipes)) /\
  (paused = false -> frame_clock mod 180 = 0 -> 0 <= pscount < 10 ->
   exists pp,
     PipePair.init (nth (Z.to_nat pscount) PS 0) = Ok pp /\
     spawn paused frame_clock pscount pipes
     = Ok ((pscount + 1) mod 10, pipes ++ [pp])).
Proof.
  unfold spawn. rewrite pymod_frames, Rtruthy_IZR. split.
  - intros [P|N].
    + rewrite P. reflexivity.
    + apply Z.eqb_neq in N. rewrite N, orb_true_r. reflexivity.
  - intros P M R. rewrite P, M. simpl negb. cbv iota.
    rewrite (PyListFacts.getitem_ok PS pscount 0)
      by (unfold len; simpl; lia).
    cbn [bind]. unfold PipePair.init at 2. cbn [bind].
    eexists. split; [reflexivity|].
    assert (C : (if pscount + 1 =? 10 then 0 else pscount + 1)
                = (pscount + 1) mod 10).
    { destruct (pscount + 1 =? 10) eqn:E.
      - apply Z.eqb_eq in E. rewrite E. reflexivity.
      - apply Z.eqb_neq in E. rewrite Z.mod_small by lia. reflexivity. }
    rewrite C. reflexivity.
Qed.

(** X15. A pipe pair is spawned exactly on the unpaused frames whose
    [frame_clock] is a multiple of 180 (3000 ms at 60 frames per second).
    The new pair is built from [PS[pscount]] and appended at the back, and
    [pscount] moves on cyclically through 0..9; on every other frame, and
    whenever the game is paused, pipes and [pscount] are left alone. *)
Theorem spawn_spec (paused : bool) (frame_clock pscount : Z)
        (pipes : list PipePair.t) :
  (paused = true \/ frame_clock mod 180 <> 0 ->
   spawn paused frame_clock pscount pipes = Ok (pscount, pipes)) /\
  (paused = false -> frame_clock mod 180 = 0 -> 0 <= pscount < 10 ->
   exists pp,
     PipePair.init (nth (Z.to_nat pscount) PS 0) = Ok pp /\
     spawn paused frame_clock pscount pipes
     = Ok ((pscount + 1) mod 10, pipes ++ [pp])).
Proof.
  apply spawn_spec_holds; assumption.
Qed.

Lemma spawn_spec_witness :
  exists pp,
    PipePair.init (nth (Z.to_nat 9) PS 0) = Ok pp /\
    spawn false 360 9 [] = Ok ((9 + 1) mod 10, [] ++ [pp]).
Proof.
  apply (proj2 (spawn_spec false 360 9 [])).
  - reflexivity.
  - reflexivity.
  - lia.
Defined.

End SpawnFacts.

(** ** Collisions and scoring *)

Module CollisionFacts.

Import PyList Game Phases.

Lemma hit_nonempty collide pipes b :
  hit collide pipes b = true -> exists p0 rest, pipes = p0 :: rest.
Proof.
  destruct pipes as [|p0 rest]; [discriminate | eauto].
Qed.

(** The statement of [check_collisions_spec], in the form later proofs use. *)
Lemma check_collisions_spec_holds (collide : PipePair.t -> Bird.t -> bool)
        (pipes : list PipePair.t) (birds : list Bird.t)
        (ais : list Ai.ai) :
  length birds = length ais ->
  exists birds' ais',
    check_collisions collide pipes birds ais = Ok (birds', ais') /\
    Forall2 (fun ba ba' =>
               collision_outcome collide pipes (fst ba) (snd ba)
                                 (fst ba') (snd ba'))
            (combine birds ais) (combine birds' ais') /\
    length birds' = length birds /\ length ais' = length ais /\
    (Forall Lineage.wf ais -> Forall Lineage.wf ais').
Proof.
  revert ais. induction birds as [|b birds IH]; intros ais L.
  - destruct ais; [|discriminate]. simpl.
    eexists _, _. split; [reflexivity|]. split; [constructor|]. auto.
  - destruct ais as [|a ais]; [discriminate|]. simpl in L.
    injection L as L.
    destruct (IH ais L) as (bs & as' & E & F & Lb & La & Wf).
    cbn [check_collisions]. fold (hit collide pipes b).
    assert (Step : exists b' a',
               (if (Ai.deathprocessed a =? 0) &&
                   (hit collide pipes b || out_of_bounds b)
                then
                  let a0 := Ai.set_deathprocessed a 1 in
                  let b0 := Bird.set_x b (-100)%R in
                  let a1 := Ai.set_done a0 1 in
                  if hit collide pipes b then
                    p0 <- getitem pipes 0 ;;
                    if (Bird.rect_y b0 >?
                        (PipePair.top_pieces p0 - 1) * PipePair.PIECE_HEIGHT)
                       && (Bird.rect_y b0 <?
                           WIN_HEIGHT -
                           PipePair.bottom_pieces p0 * PipePair.PIECE_HEIGHT)
                    then Ok (b0, Ai.set_deathtype a1 0)
                    else Ok (b0, Ai.set_deathtype a1 1)
                  else Ok (b0, Ai.set_deathtype a1 2)
                else Ok (b, a)) = Ok (b', a') /\
               collision_outcome collide pipes b a b' a').
    { unfold collision_outcome.
      destruct ((Ai.deathprocessed a =? 0) &&
                (hit collide pipes b || out_of_bounds b)).
      - cbv zeta. destruct (hit collide pipes b) eqn:H.
        + destruct (hit_nonempty _ _ _ H) as (p0 & rest & ->).
          change (getitem (p0 :: rest) 0) with (Ok p0). cbn [bind].
          change (Bird.rect_y (Bird.set_x b (-100)%R))
            with (Bird.rect_y b).
          fold (in_band p0 b).
          destruct (in_band p0 b) eqn:Band.
          * eexists _, _. split; [reflexivity|]. split; [reflexivity|].
            exists 0. split; [reflexivity|]. split; [discriminate|].
            intros _. exists p0, rest. rewrite Band. auto.
          * eexists _, _. split; [reflexivity|]. split; [reflexivity|].
            exists 1. split; [reflexivity|]. split; [discriminate|].
            intros _. exists p0, rest. rewrite Band. auto.
        + eexists _, _. split; [reflexivity|]. split; [reflexivity|].
          exists 2. split; [reflexivity|]. split; [reflexivity|].
          discriminate.
      - eexists _, _. split; [reflexivity|]. split; reflexivity. }
    destruct Step as (b' & a' & Es & Out).
    cbv zeta in Es. rewrite Es. cbn [bind]. rewrite E. cbn [bind].
    exists (b' :: bs), (a' :: as'). split; [reflexivity|].
    split; [constructor; [exact Out | exact F]|].
    simpl. split; [congruence|]. split; [congruence|].
    intros W. inversion W as [|? ? Wa Wr]; subst.
    constructor; [|apply Wf; exact Wr].
    unfold collision_outcome in Out.
    destruct ((Ai.deathprocessed a =? 0) &&
              (hit collide pipes b || out_of_bounds b)).
    + destruct Out as (_ & d & -> & _). exact Wa.
    + destruct Out as (_ & ->). exact Wa.
Qed.

Lemma collision_outcome_effect collide pipes b a b' a' :
  collision_outcome collide pipes b a b' a' ->
  collision_effect collide pipes b a b' a'.
Proof.
  unfold collision_outcome, collision_effect.
  destruct ((Ai.deathprocessed a =? 0) &&
            (hit collide pipes b || out_of_bounds b)); [|tauto].
  intros (-> & d & -> & Off & On).
  unfold killed, Bird.set_x, Ai.set_deathtype, Ai.set_done,
    Ai.set_deathprocessed.
  cbn [Bird.x Bird.y Bird.msec_to_climb Ai.deathprocessed Ai.done Ai.curr
       Ai.best Ai.count Ai.compframe Ai.score Ai.deathtype].
  repeat (split; [reflexivity|]). split; [exact Off|].
  intros H. destruct (On H) as (p0 & rest & Ep & Ed).
  exists p0, rest. split; assumption.
Qed.

(** X16. With as many lineages as birds the collision pass cannot fail, and
    for each bird: if its lineage was already processed, or the bird
    neither overlaps a pipe nor is out of bounds, bird and lineage are
    untouched; otherwise the bird's x becomes -100 (y and climb timer kept)
    and the lineage gets [deathprocessed = 1], [done = 1], its run data
    kept, and death type 2 when no pipe overlaps, and else 0 or 1 according
    to whether the bird's integer y is inside the band of the FIRST pipe of
    the queue.  Well-formed lineages stay well formed. *)
Theorem check_collisions_spec (collide : PipePair.t -> Bird.t -> bool)
        (pipes : list PipePair.t) (birds : list Bird.t)
        (ais : list Ai.ai) :
  length birds = length ais ->
  exists birds' ais',
    check_collisions collide pipes birds ais = Ok (birds', ais') /\
    Forall2 (fun ba ba' =>
               collision_effect collide pipes (fst ba) (snd ba)
                                (fst ba') (snd ba'))
            (combine birds ais) (combine birds' ais') /\
    length birds' = length birds /\ length ais' = length ais /\
    (Forall Lineage.wf ais -> Forall Lineage.wf ais').
Proof.
  intros L.
  destruct (check_collisions_spec_holds collide pipes birds ais L)
    as (bs & as' & E & F & Lb & La & W).
  exists bs, as'. split; [exact E|]. split; [|auto].
  eapply Forall2_impl; [|exact F].
  intros ba ba' Out. apply collision_outcome_effect. exact Out.
Qed.

(** Two birds overlap the only pipe: the first lineage is still unprocessed
    and is killed, the second was processed earlier and is left alone. *)
Lemma check_collisions_spec_witness :
  exists birds' ais',
    check_collisions (fun _ _ => true) [PipePair.mk 60 false [] 6 6]
                     [new_bird 50; new_bird 50]
                     [Ai.set_done Ai.init 0; Ai.set_deathprocessed Ai.init 1]
    = Ok (birds', ais') /\
    Forall2 (fun ba ba' =>
               collision_effect (fun _ _ => true)
                                [PipePair.mk 60 false [] 6 6]
                                (fst ba) (snd ba) (fst ba') (snd ba'))
            (combine [new_bird 50; new_bird 50]
                     [Ai.set_done Ai.init 0;
                      Ai.set_deathprocessed Ai.init 1])
            (combine birds' ais') /\
    length birds' = length [new_bird 50; new_bird 50] /\
    length ais'
    = length [Ai.set_done Ai.init 0; Ai.set_deathprocessed Ai.init 1] /\
    (Forall Lineage.wf
            [Ai.set_done Ai.init 0; Ai.set_deathprocessed Ai.init 1] ->
     Forall Lineage.wf ais').
Proof.
  apply (check_collisions_spec (fun _ _ => true)
           [PipePair.mk 60 false [] 6 6] [new_bird 50; new_bird 50]
           [Ai.set_done Ai.init 0; Ai.set_deathprocessed Ai.init 1]).
  reflexivity.
Defined.

End CollisionFacts.

Module ScoreFacts.

Import PyList Game Phases.

Lemma gains_refl a : gains 0 a a.
Proof. unfold gains. destruct (Ai.done a =? 0); repeat split; lia. Qed.

Lemma gains_trans j k a b c :
  gains j a b -> gains k b c -> gains (j + k) a c.
Proof.
  unfold gains. intros (D1 & B1 & S1) (D2 & B2 & S2).
  rewrite D1 in S2. split; [congruence|]. split; [congruence|].
  destruct (Ai.done a =? 0); lia.
Qed.

Lemma Forall2_gains_refl l : Forall2 (gains 0) l l.
Proof. induction l; constructor; auto using gains_refl. Qed.

Lemma Forall2_gains_trans j k l1 l2 l3 :
  Forall2 (gains j) l1 l2 -> Forall2 (gains k) l2 l3 ->
  Forall2 (gains (j + k)) l1 l3.
Proof.
  intros F. revert l3. induction F as [|a b l1 l2 G F IH]; intros l3 F2.
  - inversion F2. constructor.
  - inversion F2 as [|? c ? l3' G2 F2']; subst.
    constructor; [eapply gains_trans; eassumption | apply IH; exact F2'].
Qed.

Lemma award_spec (birds : list Bird.t) (ais : list Ai.ai) :
  Forall Lineage.wf ais -> length birds = length ais ->
  exists ais',
    award birds ais = Ok ais' /\ Forall Lineage.wf ais' /\
    length ais' = length ais /\ Forall2 (gains 1) ais ais'.
Proof.
  revert ais. induction birds as [|b birds IH]; intros ais W L.
  - destruct ais; [|discriminate]. simpl. exists [].
    repeat split; constructor.
  - destruct ais as [|a ais]; [discriminate|]. simpl in L.
    injection L as L. inversion W as [|? ? Wa Wr]; subst.
    destruct (IH ais Wr L) as (as' & E & W' & L' & G).
    cbn [award].
    assert (Step : exists a',
               (if Ai.done a =? 0
                then Ai.scorecount (Ai.set_score a (Ai.score a + 1))
                else Ok a) = Ok a' /\ Lineage.wf a' /\ gains 1 a a').
    { destruct (Ai.done a =? 0) eqn:D.
      - destruct (AiFacts.scorecount_ok
                    (Ai.set_score a (Ai.score a + 1)) Wa)
          as (a' & Es & Wa' & Eb).
        exists a'. split; [exact Es|]. split; [exact Wa'|].
        unfold Ai.scorecount in Es.
        destruct (setitem _ 2 _) as [c|]; [|discriminate].
        simpl in Es. injection Es as <-. unfold gains. rewrite D.
        repeat split.
      - exists a. split; [reflexivity|]. split; [exact Wa|].
        unfold gains. rewrite D. repeat split. lia. }
    destruct Step as (a' & Es & Wa' & Ga). rewrite Es. cbn [bind].
    rewrite E. cbn [bind]. exists (a' :: as').
    split; [reflexivity|]. split; [constructor; assumption|].
    split; [simpl; congruence | constructor; assumption].
Qed.

(** The statement of [count_scores_spec], in the form later proofs use. *)
Lemma count_scores_spec_holds (pipes : list PipePair.t) (birds : list Bird.t)
        (ais : list Ai.ai) (sc : Z) :
  Forall Lineage.wf ais -> length birds = length ais ->
  exists pipes' ais' sc',
    count_scores pipes birds ais sc = Ok (pipes', ais', sc') /\
    sc' = sc + Z.of_nat (length (filter newly_passed pipes)) /\
    Forall2 (gains (Z.of_nat (length (filter newly_passed pipes))))
            ais ais' /\
    Forall Lineage.wf ais' /\ length ais' = length ais /\
    map PipePair.x pipes' = map PipePair.x pipes /\
    Forall (fun p => newly_passed p = false) pipes' /\
    count_scores pipes' birds ais' sc' = Ok (pipes', ais', sc').
Proof.
  revert ais sc. induction pipes as [|p pipes IH]; intros ais sc W L.
  - simpl. exists [], ais, sc.
    split; [reflexivity|]. split; [lia|].
    split; [apply Forall2_gains_refl|]. repeat split; auto.
  - cbn [count_scores filter]. fold (newly_passed p).
    destruct (newly_passed p) eqn:N.
    + destruct (award_spec birds ais W L) as (ais1 & Ea & W1 & L1 & G1).
      rewrite Ea. cbn [bind].
      destruct (IH ais1 (sc + 1) W1 ltac:(congruence))
        as (ps & ais2 & sc2 & E & Esc & G2 & W2 & L2 & X & Nn & Again).
      rewrite E. cbn [bind].
      exists (PipePair.set_score_counted p true :: ps), ais2, sc2.
      split; [reflexivity|].
      split; [cbn [length]; lia|].
      split.
      { replace (Z.of_nat (length (p :: filter newly_passed pipes)))
          with (1 + Z.of_nat (length (filter newly_passed pipes)))
          by (cbn [length]; lia).
        eapply Forall2_gains_trans; eassumption. }
      split; [exact W2|]. split; [congruence|].
      split; [simpl; f_equal; exact X|].
      assert (Np : newly_passed (PipePair.set_score_counted p true)
                   = false).
      { unfold newly_passed. simpl. apply andb_false_r. }
      split; [constructor; assumption|].
      cbn [count_scores]. fold (newly_passed
                                  (PipePair.set_score_counted p true)).
      rewrite Np. cbn [bind]. rewrite Again. reflexivity.
    + destruct (IH ais sc W L)
        as (ps & ais2 & sc2 & E & Esc & G2 & W2 & L2 & X & Nn & Again).
      cbn [bind]. rewrite E. cbn [bind].
      exists (p :: ps), ais2, sc2.
      split; [reflexivity|]. split; [exact Esc|]. split; [exact G2|].
      split; [exact W2|]. split; [exact L2|].
      split; [simpl; f_equal; exact X|].
      split; [constructor; assumption|].
      cbn [count_scores]. fold (newly_passed p).
      rewrite N. cbn [bind]. rewrite Again. reflexivity.
Qed.

(** X17. On well-formed lineages the scoring pass cannot fail.  The global
    score grows by the number [k] of pipes that have passed the birds'
    column and were not counted before; every alive lineage gains exactly
    [k] points, every other lineage none; [done] and [best] are kept; pipes
    keep their positions and none is left to be counted, so that running
    the pass again changes nothing. *)
Theorem count_scores_spec (pipes : list PipePair.t) (birds : list Bird.t)
        (ais : list Ai.ai) (sc : Z) :
  Forall Lineage.wf ais -> length birds = length ais ->
  exists pipes' ais' sc',
    count_scores pipes birds ais sc = Ok (pipes', ais', sc') /\
    sc' = sc + Z.of_nat (length (filter newly_passed pipes)) /\
    Forall2 (gains (Z.of_nat (length (filter newly_passed pipes))))
            ais ais' /\
    Forall Lineage.wf ais' /\ length ais' = length ais /\
    map PipePair.x pipes' = map PipePair.x pipes /\
    Forall (fun p => newly_passed p = false) pipes' /\
    count_scores pipes' birds ais' sc' = Ok (pipes', ais', sc').
Proof.
  apply count_scores_spec_holds; assumption.
Qed.

Lemma count_scores_spec_witness :
  exists pipes' ais' sc',
    count_scores [PipePair.mk (-40) false [] 6 6; PipePair.mk 500 false [] 5 7]
                 [new_bird 50; new_bird 50]
                 [Ai.set_done Ai.init 0; Ai.init] 3
    = Ok (pipes', ais', sc') /\
    sc' = 3 + Z.of_nat (length (filter newly_passed
              [PipePair.mk (-40) false [] 6 6;
               PipePair.mk 500 false [] 5 7])) /\
    Forall2 (gains (Z.of_nat (length (filter newly_passed
              [PipePair.mk (-40) false [] 6 6;
               PipePair.mk 500 false [] 5 7]))))
            [Ai.set_done Ai.init 0; Ai.init] ais' /\
    Forall Lineage.wf ais' /\
    length ais' = length [Ai.set_done Ai.init 0; Ai.init] /\
    map PipePair.x pipes'
    = map PipePair.x [PipePair.mk (-40) false [] 6 6;
                      PipePair.mk 500 false [] 5 7] /\
    Forall (fun p => newly_passed p = false) pipes' /\
    count_scores pipes' [new_bird 50; new_bird 50] ais' sc'
    = Ok (pipes', ais', sc').
Proof.
  apply (count_scores_spec
           [PipePair.mk (-40) false [] 6 6; PipePair.mk 500 false [] 5 7]
           [new_bird 50; new_bird 50] [Ai.set_done Ai.init 0; Ai.init] 3).
  - repeat constructor; unfold PyList.len; simpl; lia.
  - reflexivity.
Defined.

End ScoreFacts.

(** ** The reset block *)

Module SyncFacts.

Import PyList PyListFacts Game.

Lemma getitem_nth_error {A : Type} (l : list A) (i : Z) (a : A) :
  0 <= i -> nth_error l (Z.to_nat i) = Some a -> getitem l i = Ok a.
Proof.
  intros H N. unfold getitem.
  assert (L : (Z.to_nat i < length l)%nat).
  { apply nth_error_Some. congruence. }
  rewrite index_nonneg by (unfold len; lia). rewrite N. reflexivity.
Qed.

Lemma Forall2_compose {A : Type} (R1 R2 R3 : A -> A -> Prop) l1 l2 l3 :
  (forall a b c, R1 a b -> R2 b c -> R3 a c) ->
  Forall2 R1 l1 l2 -> Forall2 R2 l2 l3 -> Forall2 R3 l1 l3.
Proof.
  intros T F. revert l3. induction F as [|a b l1 l2 H F IH]; intros l3 F2.
  - inversion F2. constructor.
  - inversion F2 as [|? c ? l3' H2 F2']; subst.
    constructor; [eapply T; eassumption | apply IH; exact F2'].
Qed.

Lemma Forall2_In_r {A : Type} (R : A -> A -> Prop) l l' y :
  Forall2 R l l' -> In y l' -> exists x, In x l /\ R x y.
Proof.
  intros F. induction F as [|a b l l' H F IH]; intros I.
  - contradiction.
  - destruct I as [<-|I].
    + exists a. split; [left; reflexivity | exact H].
    + destruct (IH I) as (x & Ix & Rx). exists x. split; [right|]; auto.
Qed.

(** The scan either keeps its starting pair or returns the position of a
    lineage of the list. *)
Lemma scan_spec (better : Z -> Z -> bool) (k : Z) (l : list Ai.ai)
      (i best bestindex : Z) :
  Forall (fun a => 0 <= k < len (Ai.best a)) l ->
  exists best' bestindex',
    scan better k l i best bestindex = Ok (best', bestindex') /\
    ((best' = best /\ bestindex' = bestindex) \/
     (exists a,
         nth_error l (Z.to_nat (bestindex' - i)) = Some a /\
         i <= bestindex')).
Proof.
  revert i best bestindex. induction l as [|a l IH];
    intros i best bestindex F; simpl.
  - eexists _, _. split; [reflexivity|]. left. auto.
  - inversion F as [|? ? Ha Fr]; subst.
    rewrite (getitem_ok _ _ 0) by assumption. cbn [bind].
    destruct (better _ best).
    + destruct (IH (i + 1) (nth (Z.to_nat k) (Ai.best a) 0) i Fr)
        as (b' & bi' & E & C).
      exists b', bi'. split; [exact E|]. right.
      destruct C as [[-> ->]|(x & N & Le)].
      * exists a. replace (i - i) with 0 by lia. simpl. split; [auto | lia].
      * exists x. split; [|lia].
        replace (Z.to_nat (bi' - i)) with (S (Z.to_nat (bi' - (i + 1))))
          by lia. exact N.
    + destruct (IH (i + 1) best bestindex Fr) as (b' & bi' & E & C).
      exists b', bi'. split; [exact E|].
      destruct C as [[-> ->]|(x & N & Le)].
      * left. auto.
      * right. exists x. split; [|lia].
        replace (Z.to_nat (bi' - i)) with (S (Z.to_nat (bi' - (i + 1))))
          by lia. exact N.
Qed.

Lemma adopt_spec (worse : Z -> Z -> bool) (k : Z) (leader : list Z)
      (best : Z) (l : list Ai.ai) :
  Forall (fun a => 0 <= k < len (Ai.best a)) l ->
  exists l',
    adopt worse k leader best l = Ok l' /\
    Forall2 (fun a a' => a' = a \/ a' = Ai.set_best a leader) l l'.
Proof.
  induction l as [|a l IH]; intros F; simpl.
  - exists []. split; [reflexivity | constructor].
  - inversion F as [|? ? Ha Fr]; subst.
    rewrite (getitem_ok _ _ 0) by assumption. cbn [bind].
    destruct (IH Fr) as (l' & E & F2). rewrite E. cbn [bind].
    eexists. split; [reflexivity|]. constructor; [|exact F2].
    destruct (worse _ best); auto.
Qed.

(** One adoption pass, with its leader taken from the list. *)
Lemma sync_pass (better worse : Z -> Z -> bool) (k start : Z)
      (trigger : Z -> bool) (ais : list Ai.ai) :
  Forall (fun a => 0 <= k < len (Ai.best a)) ais ->
  (forall v, trigger v = true -> v <> start) ->
  exists ais',
    ('(best, bestindex) <- scan better k ais 0 start (-1) ;;
     if trigger best then
       leader <- getitem ais bestindex ;;
       adopt worse k (Ai.best leader) best ais
     else Ok ais) = Ok ais' /\
    Forall2 (fun a a' => Phases.adopted ais a a') ais ais'.
Proof.
  intros F T.
  assert (Id : Forall2 (fun a a' => Phases.adopted ais a a') ais ais).
  { assert (G : forall l, incl l ais ->
                          Forall2 (fun a a' => Phases.adopted ais a a') l l).
    { induction l as [|a l IH]; intros I; constructor.
      - split; [destruct a; reflexivity|].
        exists a. split; [apply I; left|]; reflexivity.
      - apply IH. intros x Hx. apply I. right. exact Hx. }
    apply G. apply incl_refl. }
  destruct (scan_spec better k ais 0 start (-1) F) as (b & bi & E & C).
  rewrite E. cbn [bind].
  destruct (trigger b) eqn:Tr; [|exists ais; split; [reflexivity | exact Id]].
  destruct C as [[-> _]|(a & N & Le)]; [apply T in Tr; congruence|].
  replace (bi - 0) with bi in N by lia.
  rewrite (getitem_nth_error ais bi a Le N). cbn [bind].
  destruct (adopt_spec worse k (Ai.best a) b ais F) as (l' & Ea & F2).
  exists l'. split; [exact Ea|].
  apply nth_error_In in N.
  eapply (Forall2_compose _ _ _ _ _ _ _ Id F2).
  Unshelve.
  intros x y z (-> & l0 & I0 & B0) [->| ->].
  - split; [destruct x; reflexivity|]. exists l0. auto.
  - split; [reflexivity|]. exists a. auto.
Qed.

Lemma adopted_wf (ais : list Ai.ai) (a a' : Ai.ai) :
  Forall Lineage.wf ais -> Lineage.wf a -> Phases.adopted ais a a' ->
  Lineage.wf a'.
Proof.
  intros F (Hc & Hb & Hn) (E & l & I & B).
  rewrite Forall_forall in F. destruct (F l I) as (_ & Hl & _).
  rewrite E. unfold Lineage.wf. cbn [Ai.curr Ai.best Ai.count Ai.set_best].
  rewrite B. auto.
Qed.

Lemma Forall2_adopted_wf (ais l l' : list Ai.ai) :
  Forall Lineage.wf ais -> Forall Lineage.wf l ->
  Forall2 (fun a a' => Phases.adopted ais a a') l l' ->
  Forall Lineage.wf l'.
Proof.
  intros F W F2. induction F2 as [|a a' l l' H F2 IH]; constructor.
  - inversion W as [|? ? Wa Wl]; subst.
    exact (adopted_wf ais a a' F Wa H).
  - apply IH. inversion W; assumption.
Qed.

Lemma wf_indexable (k : Z) (l : list Ai.ai) :
  0 <= k < 3 -> Forall Lineage.wf l ->
  Forall (fun a => 0 <= k < len (Ai.best a)) l.
Proof.
  intros K F. eapply Forall_impl; [|exact F].
  intros a (_ & Hb & _). unfold len. lia.
Qed.

(** The statement of [sync_best_spec], in the form later proofs use. *)
Lemma sync_best_spec_holds (ais : list Ai.ai) :
  Forall Lineage.wf ais ->
  exists ais',
    sync_best ais = Ok ais' /\
    Forall2 (fun a a' => Phases.adopted ais a a') ais ais' /\
    Forall Lineage.wf ais'.
Proof.
  intros W.
  destruct (sync_pass Z.gtb Z.ltb 0 0 (fun v => v >? 0) ais
              (wf_indexable 0 ais ltac:(lia) W)) as (ais1 & E1 & F1).
  { intros v H. rewrite Z.gtb_ltb in H. apply Z.ltb_lt in H. lia. }
  pose proof (Forall2_adopted_wf ais ais ais1 W W F1) as W1.
  destruct (sync_pass Z.ltb Z.gtb 1 2 (fun v => v <? 2) ais1
              (wf_indexable 1 ais1 ltac:(lia) W1)) as (ais2 & E2 & F2).
  { intros v H. apply Z.ltb_lt in H. lia. }
  exists ais2. split.
  - unfold sync_best.
    destruct (scan Z.gtb 0 ais 0 0 (-1)) as [[b bi]|e];
      cbn [bind] in *; [|discriminate].
    rewrite E1. cbn [bind]. exact E2.
  - assert (F : Forall2 (fun a a' => Phases.adopted ais a a') ais ais2).
    { eapply (Forall2_compose
                (fun a a' => Phases.adopted ais a a')
                (fun a a' => Phases.adopted ais1 a a')
                (fun a a' => Phases.adopted ais a a')); [|exact F1|exact F2].
      intros x y z (Ey & l0 & I0 & B0) (Ez & l1 & I1 & B1).
      split.
      - rewrite Ez, Ey. reflexivity.
      - destruct (Forall2_In_r _ _ _ _ F1 I1) as (l & Il & (_ & l2 & I2 & B2)).
        exists l2. split; [exact I2 | congruence]. }
    split; [exact F|].
    eapply Forall2_adopted_wf; [exact W | exact W | exact F].
Qed.

(** X18. On well-formed lineages the synchronisation step of the reset
    block cannot fail.  It changes nothing but [best] fields, every [best]
    it installs is the [best] list of some lineage of the population as it
    was before the step, and the lineages stay well formed; [curr], the
    cursor and [compframe] of an adopting lineage are left as they were. *)
Theorem sync_best_spec (ais : list Ai.ai) :
  Forall Lineage.wf ais ->
  exists ais',
    sync_best ais = Ok ais' /\
    Forall2 (fun a a' => Phases.adopted ais a a') ais ais' /\
    Forall Lineage.wf ais'.
Proof.
  apply sync_best_spec_holds; assumption.
Qed.

Lemma sync_best_spec_witness :
  exists ais',
    sync_best [Ai.init; Lineage.side_death; Lineage.offscreen_death]
    = Ok ais' /\
    Forall2 (fun a a' =>
               Phases.adopted
                 [Ai.init; Lineage.side_death; Lineage.offscreen_death] a a')
            [Ai.init; Lineage.side_death; Lineage.offscreen_death] ais' /\
    Forall Lineage.wf ais'.
Proof.
  apply (sync_best_spec
           [Ai.init; Lineage.side_death; Lineage.offscreen_death]).
  repeat constructor; unfold PyList.len; simpl; lia.
Defined.

End SyncFacts.

Module ResetFacts.

Import PyList Game Phases.

Lemma resetvar_fields (a : Ai.ai) (sc : Z) :
  Lineage.wf a ->
  exists a',
    Ai.resetvar a sc = Ok a' /\ Lineage.wf a' /\
    Ai.curr a' = Ai.best a' /\ Ai.count a' = 2 /\
    Ai.done a' = Ai.done a /\ Ai.deathprocessed a' = Ai.deathprocessed a /\
    Ai.score a' = Ai.score a.
Proof.
  intros W. destruct (AiFacts.resetvar_ok a sc W) as (a' & E & W' & _).
  exists a'. split; [exact E|]. split; [exact W'|].
  destruct W as (Hc & Hb & _).
  rewrite AiFacts.resetvar_eq in E by lia. cbv zeta in E.
  injection E as <-.
  destruct (Lineage.beats _ _); repeat split.
Qed.

Lemma reset_lineages_spec (firstcheck : Z) (birds : list Bird.t)
      (ais : list Ai.ai) :
  Forall Lineage.wf ais -> length birds = length ais ->
  exists birds' ais',
    reset_lineages firstcheck birds ais = Ok (birds', ais') /\
    birds' = repeat (new_bird 50) (length birds) /\
    length ais' = length ais /\
    Forall (fun a => Lineage.wf a /\ Ai.done a = 0 /\
                     Ai.deathprocessed a = 0) ais'.
Proof.
  revert ais. induction birds as [|b birds IH]; intros ais W L.
  - destruct ais; [|discriminate]. simpl.
    eexists _, _. split; [reflexivity|]. repeat split. constructor.
  - destruct ais as [|a ais]; [discriminate|]. simpl in L.
    injection L as L. inversion W as [|? ? Wa Wr]; subst.
    destruct (IH ais Wr L) as (bs & as' & E & Eb & La & F).
    cbn [reset_lineages].
    assert (Step : exists a',
               (if firstcheck =? 0
                then
                  a0 <- Ai.resetvar
                          (Ai.set_deathprocessed (Ai.set_done a 0) 0)
                          (Ai.score
                             (Ai.set_deathprocessed (Ai.set_done a 0) 0)) ;;
                  Ok (Ai.set_score a0 0)
                else Ok (Ai.set_deathprocessed (Ai.set_done a 0) 0))
               = Ok a' /\
               Lineage.wf a' /\ Ai.done a' = 0 /\ Ai.deathprocessed a' = 0).
    { destruct (firstcheck =? 0).
      - destruct (resetvar_fields
                    (Ai.set_deathprocessed (Ai.set_done a 0) 0)
                    (Ai.score (Ai.set_deathprocessed (Ai.set_done a 0) 0))
                    Wa)
          as (a' & Er & Wr' & _ & _ & D & P & _).
        rewrite Er. cbn [bind]. eexists. split; [reflexivity|].
        split; [exact Wr'|]. split; [exact D | exact P].
      - eexists. split; [reflexivity|]. split; [exact Wa|].
        split; reflexivity. }
    destruct Step as (a' & Es & Wa' & D & P).
    rewrite Es. cbn [bind]. rewrite E. cbn [bind].
    eexists _, _. split; [reflexivity|].
    split; [simpl; f_equal; exact Eb|].
    split; [simpl; congruence|].
    constructor; [auto | exact F].
Qed.

Lemma resetvar_all_spec (ais : list Ai.ai) :
  Forall (fun a => Lineage.wf a /\ Ai.done a = 0 /\
                   Ai.deathprocessed a = 0) ais ->
  exists ais',
    resetvar_all ais = Ok ais' /\ length ais' = length ais /\
    Forall started ais'.
Proof.
  induction ais as [|a ais IH]; intros F; simpl.
  - exists []. repeat split. constructor.
  - inversion F as [|? ? (Wa & D & P) Fr]; subst.
    destruct (resetvar_fields a (Ai.score a) Wa)
      as (a' & E & W' & C & N & D' & P' & _).
    rewrite E. cbn [bind].
    destruct (IH Fr) as (as' & Ea & La & Fa). rewrite Ea. cbn [bind].
    eexists. split; [reflexivity|]. split; [simpl; congruence|].
    constructor; [|exact Fa].
    unfold started. repeat split; try congruence; apply W'.
Qed.

Lemma adopted_flags (ais l l' : list Ai.ai) :
  Forall Lineage.wf ais ->
  Forall (fun a => Lineage.wf a /\ Ai.done a = 0 /\
                   Ai.deathprocessed a = 0) l ->
  Forall2 (fun a a' => adopted ais a a') l l' ->
  Forall (fun a => Lineage.wf a /\ Ai.done a = 0 /\
                   Ai.deathprocessed a = 0) l'.
Proof.
  intros W F F2. induction F2 as [|a a' l l' H F2 IH]; constructor.
  - inversion F as [|? ? (Wa & D & P) Fr]; subst.
    split; [exact (SyncFacts.adopted_wf ais a a' W Wa H)|].
    destruct H as (-> & _). split; assumption.
  - apply IH. inversion F; assumption.
Qed.

(** The statement of [reset_block_spec], in the form later proofs use. *)
Lemma reset_block_spec_holds (s : state) :
  Forall Lineage.wf (autoinput s) ->
  length (birds s) = length (autoinput s) ->
  exists s',
    reset_block s = Ok s' /\
    pipes s' = [] /\ pscount s' = 0 /\ frame_clock s' = 0 /\
    score s' = 0 /\ paused s' = false /\ firstcheck s' = 0 /\
    end_ s' = end_ s /\
    birds s' = repeat (new_bird 50) (length (birds s)) /\
    length (autoinput s') = length (autoinput s) /\
    Forall started (autoinput s') /\
    (player s = 0 -> player s' = 0 /\ bird s' = bird s) /\
    (player s <> 0 -> player s' = 1 /\ bird s' = Some (new_bird 50)).
Proof.
  intros W L. unfold reset_block.
  assert (Pl : exists b p,
             (if truthy (player s) then Ok (Some (new_bird 50), 1)
              else Ok (bird s, player s)) = Ok (b, p) /\
             (player s = 0 -> p = 0 /\ b = bird s) /\
             (player s <> 0 -> p = 1 /\ b = Some (new_bird 50))).
  { unfold truthy. destruct (player s =? 0) eqn:P; simpl.
    - apply Z.eqb_eq in P. eexists _, _. split; [reflexivity|].
      split; [auto | congruence].
    - apply Z.eqb_neq in P. eexists _, _. split; [reflexivity|].
      split; [congruence | auto]. }
  destruct Pl as (b & p & Ep & P0 & P1). rewrite Ep. cbn [bind].
  destruct (reset_lineages_spec (firstcheck s) (birds s) (autoinput s) W L)
    as (bs & ais1 & E1 & Eb & L1 & F1).
  rewrite E1. cbn [bind].
  assert (W1 : Forall Lineage.wf ais1).
  { eapply Forall_impl; [|exact F1]. intros a (Wa & _). exact Wa. }
  destruct (SyncFacts.sync_best_spec_holds ais1 W1) as (ais2 & E2 & F2 & W2).
  rewrite E2. cbn [bind].
  pose proof (adopted_flags ais1 ais1 ais2 W1 F1 F2) as Fl.
  destruct (resetvar_all_spec ais2 Fl) as (ais3 & E3 & L3 & F3).
  rewrite E3. cbn [bind].
  eexists. split; [reflexivity|]. cbn.
  repeat (split; [reflexivity|]).
  split; [exact Eb|].
  split.
  { rewrite L3, <- L1. symmetry. eapply Forall2_length. exact F2. }
  split; [exact F3|]. split; assumption.
Qed.

(** X19. The reset block cannot fail on a population of well-formed
    lineages with one bird each, and it always leaves the same starting
    configuration: no pipes, schedule index 0, frame clock 0, global score
    0, unpaused, [firstcheck] cleared, every bird fresh at its start
    position, and every lineage alive, unprocessed, with [curr] a copy of
    its [best] and the cursor at 2.  [end] is kept; a player bird, if any,
    is renewed and [player] becomes 1. *)
Theorem reset_block_spec (s : state) :
  Forall Lineage.wf (autoinput s) ->
  length (birds s) = length (autoinput s) ->
  exists s',
    reset_block s = Ok s' /\
    pipes s' = [] /\ pscount s' = 0 /\ frame_clock s' = 0 /\
    score s' = 0 /\ paused s' = false /\ firstcheck s' = 0 /\
    end_ s' = end_ s /\
    birds s' = repeat (new_bird 50) (length (birds s)) /\
    length (autoinput s') = length (autoinput s) /\
    Forall started (autoinput s') /\
    (player s = 0 -> player s' = 0 /\ bird s' = bird s) /\
    (player s <> 0 -> player s' = 1 /\ bird s' = Some (new_bird 50)).
Proof.
  apply reset_block_spec_holds; assumption.
Qed.

Lemma reset_block_spec_witness :
  exists s',
    reset_block (main_init 3 1 (Lineage.constant_tape 0)) = Ok s' /\
    pipes s' = [] /\ pscount s' = 0 /\ frame_clock s' = 0 /\
    score s' = 0 /\ paused s' = false /\ firstcheck s' = 0 /\
    end_ s' = end_ (main_init 3 1 (Lineage.constant_tape 0)) /\
    birds s' = repeat (new_bird 50)
                 (length (birds (main_init 3 1 (Lineage.constant_tape 0)))) /\
    length (autoinput s')
    = length (autoinput (main_init 3 1 (Lineage.constant_tape 0))) /\
    Forall started (autoinput s') /\
    (player (main_init 3 1 (Lineage.constant_tape 0)) = 0 ->
     player s' = 0 /\
     bird s' = bird (main_init 3 1 (Lineage.constant_tape 0))) /\
    (player (main_init 3 1 (Lineage.constant_tape 0)) <> 0 ->
     player s' = 1 /\ bird s' = Some (new_bird 50)).
Proof.
  apply (reset_block_spec (main_init 3 1 (Lineage.constant_tape 0))).
  - repeat constructor; unfold PyList.len; simpl; lia.
  - reflexivity.
Defined.

End ResetFacts.

(** ** The loop never raises *)

Module SafetyFacts.

Import PyList Game Phases.

Lemma ml_call_ok (birds : list Bird.t) (ais : list Ai.ai) (g : rng) :
  Forall Lineage.wf ais -> length birds = length ais ->
  exists birds' ais' g',
    ml_call birds ais g = Ok (birds', ais', g') /\
    Forall Lineage.wf ais' /\
    length birds' = length birds /\ length ais' = length ais.
Proof.
  revert ais g. induction birds as [|b birds IH]; intros ais g W L.
  - destruct ais; [|discriminate]. simpl.
    eexists _, _, _. split; [reflexivity|]. repeat split. constructor.
  - destruct ais as [|a ais]; [discriminate|]. simpl in L.
    injection L as L. inversion W as [|? ? Wa Wr]; subst.
    cbn [ml_call].
    assert (Step : exists b' a' g',
               ml_body b a g = Ok (b', a', g') /\ Lineage.wf a').
    { unfold ml_body. destruct (Ai.done a =? 0).
      - destruct (AiFacts.play_ok a g Wa) as (v & a' & g' & E & W' & _).
        rewrite E. cbn [bind]. destruct (v =? 1); eauto.
      - eauto. }
    destruct Step as (b' & a' & g' & E & Wa'). rewrite E. cbn [bind].
    destruct (IH ais g' Wr L) as (bs & as' & g2 & E2 & W2 & Lb & La).
    rewrite E2. cbn [bind].
    eexists _, _, _. split; [reflexivity|].
    split; [constructor; assumption|]. simpl. split; congruence.
Qed.

Lemma spawn_ok (paused : bool) (frame_clock pscount : Z)
      (pipes : list PipePair.t) :
  0 <= pscount < 10 ->
  exists pscount' pipes',
    spawn paused frame_clock pscount pipes = Ok (pscount', pipes') /\
    0 <= pscount' < 10.
Proof.
  intros R.
  destruct (SpawnFacts.spawn_spec_holds paused frame_clock pscount pipes)
    as [Skip Add].
  destruct paused.
  - exists pscount, pipes. split; [apply Skip; left; reflexivity | exact R].
  - destruct (Z.eq_dec (frame_clock mod 180) 0) as [M|M].
    + destruct (Add eq_refl M R) as (pp & _ & E).
      eexists _, _. split; [exact E|].
      apply Z.mod_pos_bound. lia.
    + exists pscount, pipes. split; [apply Skip; right; exact M | exact R].
Qed.

Lemma player_collision_ok collide pipes (player : Z)
      (bird : option Bird.t) :
  (player <> 0 -> bird <> None) ->
  exists player' bird',
    player_collision collide pipes player bird = Ok (player', bird') /\
    (player' <> 0 -> bird' <> None) /\
    (player = 0 <-> player' = 0).
Proof.
  intros B. unfold player_collision, truthy.
  destruct (player =? 0) eqn:P; simpl.
  - apply Z.eqb_eq in P. eexists _, _. split; [reflexivity|].
    split; [exact B | tauto].
  - apply Z.eqb_neq in P. destruct bird as [b|]; [|elim (B P); reflexivity].
    destruct (_ || _).
    + eexists _, _. split; [reflexivity|].
      split; [discriminate | split; intros; lia].
    + eexists _, _. split; [reflexivity|].
      split; [discriminate | tauto].
Qed.

Lemma tick_safe (inp : tick_input) (s : state) :
  sound s -> exists s', tick inp s = Ok s' /\ sound s'.
Proof.
  intros (W & L & B & R). unfold tick.
  destruct (spawn_ok (paused s) (frame_clock s) (pscount s) (pipes s) R)
    as (ps & pipes1 & Es & R').
  rewrite Es. cbn [bind].
  destruct (LoopFacts.handle_events_end_holds (events inp) (end_ s) (paused s)
              (player s) (bird s)) as (p' & b' & Eh & Ib).
  { unfold truthy. destruct (player s =? 0) eqn:P; [left; reflexivity|].
    right. apply B. apply Z.eqb_neq. exact P. }
  rewrite Eh. cbn [bind].
  assert (B' : player s <> 0 -> b' <> None).
  { intros P N. apply Ib in N. exact (B P N). }
  destruct p'.
  - eexists. split; [reflexivity|]. repeat split; assumption || apply R'.
  - destruct (CollisionFacts.check_collisions_spec_holds (collide_mask inp)
                pipes1 (birds s) (autoinput s) L)
      as (bs & ais1 & Ec & _ & Lb & La & Wc).
    rewrite Ec. cbn [bind].
    destruct (player_collision_ok (collide_mask inp) pipes1 (player s) b' B')
      as (pl' & b2 & Ep & B2 & _).
    rewrite Ep. cbn [bind].
    assert (Bu : exists b3,
               (if truthy pl' then
                  match b2 with
                  | Some b => Ok (Some (Bird.update b 1))
                  | None => Raise UnboundLocalError
                  end
                else Ok b2) = Ok b3 /\ (pl' <> 0 -> b3 <> None)).
    { unfold truthy. destruct (pl' =? 0) eqn:P; simpl.
      - apply Z.eqb_eq in P. eexists. split; [reflexivity | lia].
      - apply Z.eqb_neq in P. destruct b2 as [b|]; [|elim (B2 P); reflexivity].
        eexists. split; [reflexivity | discriminate]. }
    destruct Bu as (b3 & Eu & B3). rewrite Eu. cbn [bind].
    destruct (ScoreFacts.count_scores_spec_holds
                (map (fun p => PipePair.update p 1) (retire pipes1))
                (map (fun b => Bird.update b 1) bs) ais1 (score s)
                (Wc W)
                ltac:(rewrite length_map; congruence))
      as (pipes2 & ais2 & sc2 & Ek & _ & _ & W2 & L2 & _).
    rewrite Ek. cbn [bind].
    destruct (ml_call_ok (map (fun b => Bird.update b 1) bs) ais2 (gen s)
                W2 ltac:(rewrite length_map; congruence))
      as (bs3 & ais3 & g3 & Em & W3 & Lb3 & La3).
    rewrite Em. cbn [bind].
    eexists. split; [reflexivity|].
    unfold sound. cbn.
    split; [exact W3|]. split; [rewrite length_map in Lb3; congruence|].
    split; [exact B3 | exact R'].
Qed.

Lemma iteration_safe (inp : tick_input) (s : state) :
  sound s -> exists s', iteration inp s = Ok s' /\ sound s'.
Proof.
  intros (W & L & B & R). unfold iteration. cbv zeta.
  destruct (_ && _).
  - destruct (ResetFacts.reset_block_spec_holds
                (mk (birds s) (autoinput s) (bird s) (player s) (pipes s)
                    (pscount s) (end_ s) (firstcheck s)
                    (compute_restart (autoinput s)) (score s) (paused s)
                    (frame_clock s) (gen s)) W L)
      as (s1 & E & _ & Ps & _ & _ & _ & _ & _ & Eb & La & St & P0 & P1).
    rewrite E. cbn [bind]. apply tick_safe.
    cbn in *. unfold sound. split.
    { eapply Forall_impl; [|exact St]. intros a (Wa & _). exact Wa. }
    split; [rewrite Eb, repeat_length; congruence|].
    split; [|lia].
    intros P. destruct (Z.eq_dec (player s) 0) as [Z0|NZ].
    + destruct (P0 Z0) as (C & _). congruence.
    + destruct (P1 NZ) as (_ & ->). discriminate.
  - cbn [bind]. apply tick_safe. unfold sound. cbn. auto.
Qed.

(** X22. Whatever the population size, the player flag, the random tape
    and the events and overlaps fed to it, [main]'s loop never raises: every
    iteration succeeds and keeps one well-formed lineage per bird, a bound
    player bird whenever there is a player, and a schedule index inside
    [PS]. *)
Theorem main_loop_never_raises (birdnum player : Z) (g : rng)
        (inputs : list tick_input) :
  exists s n,
    main_loop inputs (main_init birdnum player g) 0 = Ok (s, n) /\
    sound s /\ (n <= length inputs)%nat.
Proof.
  assert (Init : sound (main_init birdnum player g)).
  { unfold sound, main_init. cbn. split.
    - apply Forall_forall. intros a I. apply repeat_spec in I. subst.
      unfold Lineage.wf, len. simpl. lia.
    - split; [rewrite !repeat_length; reflexivity|]. split; [|lia].
      intros P. destruct (player =? 0) eqn:E; [|discriminate].
      apply Z.eqb_eq in E. contradiction. }
  assert (Gen : forall inputs s k,
             sound s ->
             exists s' n,
               main_loop inputs s k = Ok (s', n) /\ sound s' /\
               (n <= k + length inputs)%nat).
  { clear. induction inputs as [|inp rest IH]; intros s k Hs; simpl.
    - exists s, k. split; [reflexivity|]. split; [exact Hs | lia].
    - destruct (end_ s).
      + exists s, k. split; [reflexivity|]. split; [exact Hs | lia].
      + destruct (iteration_safe inp s Hs) as (s1 & E & S1).
        rewrite E. cbn [bind].
        destruct (IH s1 (S k) S1) as (s2 & n & E2 & S2 & Le).
        exists s2, n. split; [exact E2|]. split; [exact S2 | lia]. }
  destruct (Gen inputs _ 0%nat Init) as (s & n & E & S & Le).
  exists s, n. auto.
Qed.

End SafetyFacts.

(** ** Leaving the loop, and pausing *)

Module ExitFacts.

Import PyList Game Phases.

Lemma max_fold (l : list Ai.ai) (m0 : Z) :
  Forall Lineage.wf l ->
  exists m,
    fold_left (fun acc r => m <- acc ;; v <- r ;; Ok (Z.max m v))
              (map (fun a => getitem (Ai.best a) 0) l) (Ok m0) = Ok m /\
    m0 <= m /\
    (forall a, In a l -> Lineage.score_of (Ai.best a) <= m) /\
    (m = m0 \/ exists a, In a l /\ Lineage.score_of (Ai.best a) = m).
Proof.
  revert m0. induction l as [|a l IH]; intros m0 W; simpl.
  - exists m0. split; [reflexivity|]. split; [lia|].
    split; [contradiction | left; reflexivity].
  - inversion W as [|? ? (_ & Hb & _) Wr]; subst.
    rewrite (AiFacts.getitem_0 (Ai.best a)) by lia. cbn [bind].
    destruct (IH (Z.max m0 (Lineage.score_of (Ai.best a))) Wr)
      as (m & E & Le & Up & Wit).
    exists m. split; [exact E|]. split; [lia|]. split.
    + intros x [<-|I]; [lia | apply Up; exact I].
    + destruct Wit as [->|(x & I & Ex)].
      * destruct (Z.max_spec m0 (Lineage.score_of (Ai.best a)))
          as [[_ ->]|[_ ->]]; [right; exists a | left]; auto.
      * right. exists x. auto.
Qed.

(** X20. After the loop, on well-formed lineages: with an empty population
    [max(finalscore)] raises [ValueError]; otherwise the reported value is
    the largest score stored in any lineage's [best], and some lineage has
    exactly that score. *)
Theorem highest_score_spec (s : state) :
  Forall Lineage.wf (autoinput s) ->
  (autoinput s = [] -> highest_score s = Raise ValueError) /\
  (autoinput s <> [] ->
   exists m,
     highest_score s = Ok m /\
     (forall a, In a (autoinput s) ->
                Lineage.score_of (Ai.best a) <= m) /\
     (exists a, In a (autoinput s) /\ Lineage.score_of (Ai.best a) = m)).
Proof.
  intros W. unfold highest_score. split.
  - intros ->. reflexivity.
  - intros N. destruct (autoinput s) as [|a l]; [contradiction|].
    inversion W as [|? ? Wa Wr]; subst. cbn [map].
    destruct Wa as (_ & Hb & _).
    rewrite (AiFacts.getitem_0 (Ai.best a)) by lia.
    destruct (max_fold l (Lineage.score_of (Ai.best a)) Wr)
      as (m & E & Le & Up & Wit).
    exists m. split; [exact E|]. split.
    + intros x [<-|I]; [exact Le | apply Up; exact I].
    + destruct Wit as [->|(x & I & Ex)].
      * exists a. split; [left|]; reflexivity.
      * exists x. split; [right; exact I | exact Ex].
Qed.

Lemma highest_score_spec_witness :
  exists m,
    highest_score (main_init 2 0 (Lineage.constant_tape 0)) = Ok m /\
    (forall a, In a (autoinput (main_init 2 0 (Lineage.constant_tape 0))) ->
               Lineage.score_of (Ai.best a) <= m) /\
    (exists a, In a (autoinput (main_init 2 0 (Lineage.constant_tape 0))) /\
               Lineage.score_of (Ai.best a) = m).
Proof.
  apply (proj2 (highest_score_spec
                  (main_init 2 0 (Lineage.constant_tape 0))
                  ltac:(repeat constructor; unfold PyList.len; simpl; lia))).
  simpl. discriminate.
Defined.

(** X21. A paused game is frozen: in an iteration that does not reset,
    starts paused and receives no events, nothing is spawned, moved, scored
    or asked of the policy, and the frame clock stands still; the state is
    returned as it was, with only [restart] recomputed. *)
Theorem paused_iteration_is_frozen (inp : tick_input) (s : state) :
  resets s = false -> paused s = true -> events inp = [] ->
  iteration inp s =
  Ok (mk (birds s) (autoinput s) (bird s) (player s) (pipes s) (pscount s)
         (end_ s) (firstcheck s) (compute_restart (autoinput s)) (score s)
         (paused s) (frame_clock s) (gen s)).
Proof.
  intros R P E. unfold iteration. cbv zeta. cbn [autoinput player firstcheck].
  unfold resets in R. rewrite R. cbn [bind].
  unfold tick. cbn. rewrite P, E. unfold spawn. cbn. reflexivity.
Qed.

Lemma paused_iteration_is_frozen_witness :
  iteration (mkInput [] (fun _ _ => true))
            (mk [new_bird 50] [Ai.set_done Ai.init 0] None 0 [] 3 false 0 0
                4 true 180 (Lineage.constant_tape 0))
  = Ok (mk [new_bird 50] [Ai.set_done Ai.init 0] None 0 [] 3 false 0
           (compute_restart [Ai.set_done Ai.init 0]) 4 true 180
           (Lineage.constant_tape 0)).
Proof.
  apply (paused_iteration_is_frozen
           (mkInput [] (fun _ _ => true))
           (mk [new_bird 50] [Ai.set_done Ai.init 0] None 0 [] 3 false 0 0
               4 true 180 (Lineage.constant_tape 0)));
    reflexivity.
Defined.

End ExitFacts.

Module ScheduleFacts.

Import PyList Game Phases.

(** X23. The gap schedule is deterministic and cyclic: spawning on any
    sequence of spawn frames, starting with schedule index [pscount],
    appends one pipe pair per frame, the [k]-th of them with
    [bottom_pieces = PS[(pscount + k) mod 10] + 1], and leaves the index at
    [(pscount + number of frames) mod 10]. *)
Theorem spawns_follow_schedule (frames : list Z) (pscount : Z)
        (pipes : list PipePair.t) :
  Forall (fun fc => fc mod 180 = 0) frames -> 0 <= pscount < 10 ->
  exists new,
    spawns frames pscount pipes
    = Ok ((pscount + Z.of_nat (length frames)) mod 10, pipes ++ new) /\
    map PipePair.bottom_pieces new
    = map (fun k => nth (Z.to_nat ((pscount + Z.of_nat k) mod 10)) PS 0 + 1)
          (seq 0 (length frames)).
Proof.
  revert pscount pipes.
  induction frames as [|fc frames IH]; intros pscount pipes F R.
  - exists []. cbn [spawns length seq map]. rewrite app_nil_r.
    rewrite Z.add_0_r, Z.mod_small by lia. split; reflexivity.
  - inversion F as [|? ? M Fr]; subst. cbn [spawns].
    destruct (SpawnFacts.spawn_spec_holds false fc pscount pipes) as [_ Add].
    destruct (Add eq_refl M R) as (pp & Ei & Es).
    rewrite Es. cbn [bind].
    destruct (IH ((pscount + 1) mod 10) (pipes ++ [pp]) Fr
                ltac:(apply Z.mod_pos_bound; lia))
      as (new & E & Mp).
    exists (pp :: new). split.
    + rewrite E. rewrite <- app_assoc. cbn [app length].
      rewrite Z.add_mod_idemp_l by lia.
      rewrite Nat2Z.inj_succ.
      replace (pscount + Z.succ (Z.of_nat (length frames)))
        with (pscount + 1 + Z.of_nat (length frames))
        by (unfold Z.succ; ring).
      reflexivity.
    + cbn [map length seq]. f_equal.
      * destruct (PipeFacts.init_counts (nth (Z.to_nat pscount) PS 0))
          as (pp' & Ei' & Eb & _).
        rewrite Ei in Ei'. injection Ei' as <-. rewrite Eb.
        rewrite Z.add_0_r, Z.mod_small by lia. reflexivity.
      * rewrite Mp, <- seq_shift, map_map.
        apply map_ext. intros k.
        rewrite Z.add_mod_idemp_l by lia.
        rewrite Nat2Z.inj_succ.
        replace (pscount + Z.succ (Z.of_nat k))
          with (pscount + 1 + Z.of_nat k) by (unfold Z.succ; ring).
        reflexivity.
Qed.

Lemma spawns_follow_schedule_witness :
  exists new,
    spawns [0; 180; 360] 8 []
    = Ok ((8 + Z.of_nat (length [0; 180; 360])) mod 10, [] ++ new) /\
    map PipePair.bottom_pieces new
    = map (fun k => nth (Z.to_nat ((8 + Z.of_nat k) mod 10)) PS 0 + 1)
          (seq 0 (length [0; 180; 360])).
Proof.
  apply (spawns_follow_schedule [0; 180; 360] 8 []).
  - repeat constructor.
  - lia.
Defined.

End ScheduleFacts.

(** ** An empty population, iteration by iteration *)

Module ZeroPopulation.

Import PyList Game Scenario Phases GameFacts.

Lemma first_pipe :
  exists pp,
    spawn false 0 0 [] = Ok (1, [pp]) /\
    PipePair.bottom_pieces pp = nth 0 PS 0 + 1 /\
    PipePair.visible pp = true /\
    newly_passed (PipePair.update pp 1) = false.
Proof.
  destruct (proj2 (SpawnFacts.spawn_spec_holds false 0 0 [])
              eq_refl eq_refl ltac:(lia)) as (pp & Ei & Es).
  exists pp. split; [exact Es|].
  unfold PipePair.init in Ei. injection Ei as <-.
  split; [reflexivity|]. split.
  - unfold PipePair.visible. cbn [PipePair.x].
    apply andb_true_iff. rewrite !PipeLifetime.Rltb_true_iff.
    unfold WIN_WIDTH, PipePair.WIDTH.
    replace (IZR (284 * 2 - 1)) with 567%R by (simpl; lra).
    replace (IZR (284 * 2)) with 568%R by (simpl; lra).
    replace (IZR (- (80))) with (-80)%R by (simpl; lra).
    split; lra.
  - unfold newly_passed. rewrite PipeLifetime.update_1_x. cbn [PipePair.x].
    apply andb_false_iff. left.
    destruct (Rltb _ _) eqn:E; [|reflexivity].
    apply PipeLifetime.Rltb_true_iff in E.
    unfold WIN_WIDTH, PipePair.WIDTH, BIRD_X in E.
    replace (IZR (284 * 2 - 1)) with 567%R in E by (simpl; lra).
    lra.
Qed.

(** With nobody to play, every iteration finds the reset condition true,
    runs the reset block and then the tick: it cannot fail, sets [end]
    exactly when its events get to an ESCAPE, and leaves a freshly reset
    state. *)
Lemma iteration_resets inp s :
  unpopulated s -> end_ s = false ->
  resets s = true /\
  exists s',
    iteration inp s = Ok s' /\ unpopulated s' /\
    end_ s' = escape_reached (events inp) /\ freshly_reset s'.
Proof.
  intros (Hb & Ha & Hp) He.
  destruct s as [bs ais b pl pipes ps e fc rs sc pa fk g];
    cbn [birds autoinput player end_] in *; subst.
  split; [reflexivity|].
  unfold iteration. cbv zeta.
  cbn [birds autoinput bird player Game.pipes pscount end_ firstcheck
       restart score paused frame_clock gen compute_restart fold_left].
  change ((1 =? 1) && ((0 =? 0) || (0 =? -1) || truthy fc)) with true.
  cbv iota. unfold reset_block.
  cbn [birds autoinput bird player Game.pipes pscount end_ firstcheck
       restart score paused frame_clock gen truthy Z.eqb negb bind
       reset_lineages].
  change (sync_best []) with (@Ok (list Ai.ai) []). cbn [bind resetvar_all].
  destruct first_pipe as (pp & Es & Bp & Vis & Np).
  unfold tick.
  cbn [birds autoinput bird player Game.pipes pscount end_ firstcheck
       restart score paused frame_clock gen].
  rewrite Es. cbn [bind].
  destruct (handle_events_no_player (events inp) false false b)
    as (p' & Eh).
  rewrite Eh. cbn [bind orb].
  destruct p'.
  - eexists. split; [reflexivity|].
    split; [repeat split|]. split; [reflexivity|].
    unfold freshly_reset. cbn. rewrite Bp. repeat split.
  - cbn [check_collisions bind player_collision truthy Z.eqb negb retire map].
    rewrite Vis. cbn [map count_scores]. fold (newly_passed (PipePair.update pp 1)).
    rewrite Np. cbn [bind count_scores ml_call].
    eexists. split; [reflexivity|].
    split; [repeat split|]. split; [reflexivity|].
    unfold freshly_reset. cbn. rewrite Bp. repeat split.
Qed.

Lemma unpopulated_resets s : unpopulated s -> resets s = true.
Proof.
  intros (_ & Ha & Hp). unfold resets. rewrite Ha, Hp. reflexivity.
Qed.

Lemma main_loop_resets inputs s n :
  unpopulated s -> end_ s = false ->
  Forall (fun inp => escape_reached (events inp) = false) inputs ->
  exists s',
    main_loop inputs s n = Ok (s', (n + length inputs)%nat) /\
    unpopulated s' /\ end_ s' = false /\
    (freshly_reset s \/ inputs <> [] -> freshly_reset s').
Proof.
  revert s n. induction inputs as [|inp rest IH]; intros s n U E Q.
  - exists s. cbn [main_loop length]. rewrite Nat.add_0_r.
    split; [reflexivity|]. split; [exact U|]. split; [exact E|].
    intros [R|N]; [exact R | contradiction].
  - cbn [main_loop]. rewrite E. inversion Q as [|? ? Qi Qr]; subst.
    destruct (iteration_resets inp s U E) as (_ & s1 & E1 & U1 & F1 & R1).
    rewrite E1. cbn [bind]. rewrite Qi in F1.
    destruct (IH s1 (S n) U1 F1 Qr) as (s2 & E2 & U2 & F2 & R2).
    exists s2. rewrite E2.
    replace (n + length (inp :: rest))%nat with (S n + length rest)%nat
      by (cbn [length]; lia).
    split; [reflexivity|]. split; [exact U2|]. split; [exact F2|].
    intros _. apply R2. left. exact R1.
Qed.

Lemma main_loop_escape inp rest s n :
  unpopulated s -> end_ s = false ->
  escape_reached (events inp) = true ->
  exists s',
    main_loop (inp :: rest) s n = Ok (s', S n) /\ end_ s' = true /\
    freshly_reset s'.
Proof.
  intros U E Q. cbn [main_loop]. rewrite E.
  destruct (iteration_resets inp s U E) as (_ & s1 & E1 & U1 & F1 & R1).
  rewrite E1. cbn [bind]. rewrite Q in F1. exists s1.
  destruct rest; cbn [main_loop]; rewrite ?F1; auto.
Qed.

(** C9, as the code has it.  With a population of zero and no player bird,
    the loop does not end by itself.  At the top of every iteration the
    reset condition of line 356 holds ([restart] is 1), so every iteration
    runs the reset block and then the rest of the tick: after each one the
    state is that of a fresh run one tick old ([restart = 1], [firstcheck]
    cleared, score 0, exactly the first pipe of the schedule, frame clock 1,
    or 0 if the iteration ended paused).  The loop runs one such iteration
    for every batch of events that does not get to an ESCAPE key-up, and
    leaves the [while] after the first iteration whose events do. *)
Theorem zero_population_runs_until_escape inputs g :
  Forall (fun inp => escape_reached (events inp) = false) inputs ->
  exists s,
    main_loop inputs (main_init 0 0 g) 0 = Ok (s, length inputs) /\
    end_ s = false /\
    resets s = true /\
    (inputs <> [] -> freshly_reset s) /\
    forall inp rest,
      escape_reached (events inp) = true ->
      exists s',
        main_loop (inputs ++ inp :: rest) (main_init 0 0 g) 0
        = Ok (s', S (length inputs)) /\
        end_ s' = true /\ freshly_reset s'.
Proof.
  intros Q.
  destruct (main_loop_resets inputs (main_init 0 0 g) 0
              (main_init_unpopulated g) eq_refl Q) as (s & E & U & F & R).
  cbn [Nat.add] in E. exists s. split; [exact E|]. split; [exact F|].
  split; [apply unpopulated_resets; exact U|].
  split; [intros N; apply R; right; exact N|].
  intros inp rest Esc.
  rewrite (main_loop_app _ _ _ _ _ _ E F).
  apply main_loop_escape; assumption.
Qed.

Lemma zero_population_runs_until_escape_witness :
  exists s,
    main_loop [idle; mkInput [KEYUP K_p; QUIT] (fun _ _ => false)]
              (main_init 0 0 (Lineage.constant_tape 0)) 0
    = Ok (s, length [idle; mkInput [KEYUP K_p; QUIT] (fun _ _ => false)]) /\
    end_ s = false /\
    resets s = true /\
    ([idle; mkInput [KEYUP K_p; QUIT] (fun _ _ => false)] <> [] ->
     freshly_reset s) /\
    forall inp rest,
      escape_reached (events inp) = true ->
      exists s',
        main_loop ([idle; mkInput [KEYUP K_p; QUIT] (fun _ _ => false)]
                     ++ inp :: rest)
                  (main_init 0 0 (Lineage.constant_tape 0)) 0
        = Ok (s', S (length [idle;
                             mkInput [KEYUP K_p; QUIT] (fun _ _ => false)]))
        /\ end_ s' = true /\ freshly_reset s'.
Proof.
  apply (zero_population_runs_until_escape
           [idle; mkInput [KEYUP K_p; QUIT] (fun _ _ => false)]
           (Lineage.constant_tape 0)).
  repeat constructor.
Defined.

End ZeroPopulation.
